(** * pystac scientific extension: a shallow embedding and its properties

    Embedding of [pystac/extensions/scientific.py]: the DOI utilities
    ([is_doi_valid], [doi_to_url]), the [Publication] helper, the link
    synchronizer [remove_link] and the two extension adapters
    [ScientificItemExt] and [ScientificCollectionExt].

    Python [str] values are modelled as [string] (the UTF-8 bytes of the
    text), dictionaries as [gmap], lists as [list], and a statement that can
    raise as a function returning the outcome together with the host state
    reached at that point. *)

From Stdlib Require Import Ascii String List Bool Arith Lia.
From stdpp Require Import gmap strings list fin_maps.

Set Default Proof Using "Type".

(* ===================================================================== *)
(** * Text helpers *)
(* ===================================================================== *)

Abbreviation chars := String.list_ascii_of_string.
Abbreviation text := String.string_of_list_ascii.

(* ===================================================================== *)
(** * Regular expressions as used by [re.match] *)
(* ===================================================================== *)

Module Re.

(** The fragment of Python's pattern syntax that [DOI_REGEX] is written in.
    [Bracket] is a character set [[...]] given by its ranges (a single
    character [c] is the range [c-c]); [Dot] is [.], which without the
    DOTALL flag matches every character except the line feed. *)
Inductive regex : Type :=
| Void : regex
| Eps : regex
| Chr (c : ascii) : regex
| Bracket (ranges : list (ascii * ascii)) : regex
| Dot : regex
| Cat (r1 r2 : regex) : regex
| Alt (r1 r2 : regex) : regex
| Star (r : regex) : regex.

(** [r+] and [r{n}]. *)
Definition Plus (r : regex) : regex := Cat r (Star r).

Fixpoint Repeat (n : nat) (r : regex) : regex :=
  match n with
  | O => Eps
  | S n' => Cat r (Repeat n' r)
  end.

Definition newline : ascii := Ascii.ascii_of_nat 10.

Definition in_range (c : ascii) (rg : ascii * ascii) : bool :=
  (Ascii.nat_of_ascii (fst rg) <=? Ascii.nat_of_ascii c)
  && (Ascii.nat_of_ascii c <=? Ascii.nat_of_ascii (snd rg)).

Definition in_bracket (ranges : list (ascii * ascii)) (c : ascii) : bool :=
  existsb (in_range c) ranges.

Definition dot_ok (c : ascii) : bool := negb (Ascii.eqb c newline).

(** Language of a pattern. *)
Inductive Matches : regex -> list ascii -> Prop :=
| MEps : Matches Eps []
| MChr c : Matches (Chr c) [c]
| MBracket rs c : in_bracket rs c = true -> Matches (Bracket rs) [c]
| MDot c : dot_ok c = true -> Matches Dot [c]
| MCat r1 r2 s1 s2 :
    Matches r1 s1 -> Matches r2 s2 -> Matches (Cat r1 r2) (s1 ++ s2)
| MAltL r1 r2 s : Matches r1 s -> Matches (Alt r1 r2) s
| MAltR r1 r2 s : Matches r2 s -> Matches (Alt r1 r2) s
| MStarNil r : Matches (Star r) []
| MStarCons r s1 s2 :
    Matches r s1 -> Matches (Star r) s2 -> Matches (Star r) (s1 ++ s2).

(** The matcher: Brzozowski derivatives. *)
Fixpoint nullable (r : regex) : bool :=
  match r with
  | Void => false
  | Eps => true
  | Chr _ => false
  | Bracket _ => false
  | Dot => false
  | Cat r1 r2 => nullable r1 && nullable r2
  | Alt r1 r2 => nullable r1 || nullable r2
  | Star _ => true
  end.

Fixpoint deriv (c : ascii) (r : regex) : regex :=
  match r with
  | Void => Void
  | Eps => Void
  | Chr c' => if Ascii.eqb c c' then Eps else Void
  | Bracket rs => if in_bracket rs c then Eps else Void
  | Dot => if dot_ok c then Eps else Void
  | Cat r1 r2 =>
      if nullable r1
      then Alt (Cat (deriv c r1) r2) (deriv c r2)
      else Cat (deriv c r1) r2
  | Alt r1 r2 => Alt (deriv c r1) (deriv c r2)
  | Star r' => Cat (deriv c r') (Star r')
  end.

(** [re.match(pattern, s)] succeeds when the pattern matches some prefix of
    [s]; only whether it succeeds is kept. *)
Fixpoint match_prefix (r : regex) (s : list ascii) : bool :=
  nullable r ||
  match s with
  | [] => false
  | c :: s' => match_prefix (deriv c r) s'
  end.

Definition re_match (r : regex) (s : string) : bool :=
  match_prefix r (chars s).

End Re.

(* ===================================================================== *)
(** * Module constants *)
(* ===================================================================== *)

Definition PREFIX : string := "sci:".
Definition DOI : string := PREFIX +:+ "doi".
Definition CITATION : string := PREFIX +:+ "citation".
Definition PUBLICATIONS : string := PREFIX +:+ "publications".

Definition CITE_AS : string := "cite-as".

(** Modelled from the spec: [Extensions.SCIENTIFIC], the identifier under
    which the two adapters are registered (section 6); the enumeration is
    not part of this module. *)
Definition SCIENTIFIC : string := "scientific".

(** [r'10[.][0-9]{4}([.][0-9]+)*/.+'] *)
Definition DOI_REGEX : Re.regex :=
  let digit := Re.Bracket [("0"%char, "9"%char)] in
  let dot := Re.Bracket [("."%char, "."%char)] in
  Re.Cat (Re.Chr "1")
    (Re.Cat (Re.Chr "0")
       (Re.Cat dot
          (Re.Cat (Re.Repeat 4 digit)
             (Re.Cat (Re.Star (Re.Cat dot (Re.Plus digit)))
                (Re.Cat (Re.Chr "/") (Re.Plus Re.Dot)))))).

Definition DOI_URL_BASE : string := "https://doi.org/".

(* ===================================================================== *)
(** * [urllib.parse.quote] *)
(* ===================================================================== *)

Module parse.

(** The standard library's [quote(string, safe='/')] on the UTF-8 bytes of
    its argument: letters, digits and [_.-~] are never escaped (the
    unreserved characters of RFC 3986, as [urllib] has them since Python
    3.7), the bytes of [safe] are kept, every other byte becomes [%XX] with
    upper-case hexadecimal digits. *)
Definition between (lo hi c : ascii) : bool :=
  (Ascii.nat_of_ascii lo <=? Ascii.nat_of_ascii c)
  && (Ascii.nat_of_ascii c <=? Ascii.nat_of_ascii hi).

Definition always_safe (c : ascii) : bool :=
  between "A" "Z" c || between "a" "z" c || between "0" "9" c
  || Ascii.eqb c "_" || Ascii.eqb c "." || Ascii.eqb c "-" || Ascii.eqb c "~".

Definition hex_digit (n : nat) : ascii :=
  if n <? 10 then Ascii.ascii_of_nat (48 + n)
  else Ascii.ascii_of_nat (55 + n).

Definition percent (c : ascii) : string :=
  let n := Ascii.nat_of_ascii c in
  String "%" (String (hex_digit (n / 16)) (String (hex_digit (n mod 16)) "")).

Fixpoint quote_with (safe : ascii -> bool) (s : string) : string :=
  match s with
  | EmptyString => EmptyString
  | String c rest =>
      if always_safe c || safe c
      then String c (quote_with safe rest)
      else percent c +:+ quote_with safe rest
  end.

Definition quote (s : string) : string :=
  quote_with (fun c => Ascii.eqb c "/") s.

End parse.

(* ===================================================================== *)
(** * DOI utilities *)
(* ===================================================================== *)

Definition is_doi_valid (doi : string) : bool := Re.re_match DOI_REGEX doi.

Definition doi_to_url (doi : string) : string :=
  DOI_URL_BASE +:+ parse.quote doi.

(* ===================================================================== *)
(** * Outcomes of statements that can raise *)
(* ===================================================================== *)

Inductive exn : Type :=
| KeyError (key : string)
| ValueError
| TypeError
| AttributeError
| ExtensionError.

Inductive outcome (A : Type) : Type :=
| Returned (a : A)
| Raised (e : exn).

Arguments Returned {A} a.
Arguments Raised {A} e.

(** A method run against a host of type [S]: the outcome and the host it
    leaves behind.  Mutations made before a [raise] stay in the host. *)
Definition M (S A : Type) : Type := S -> outcome A * S.

Definition M_ret {S A} (a : A) : M S A := fun h => (Returned a, h).

Definition M_bind {S A B} (k : A -> M S B) (m : M S A) : M S B :=
  fun h =>
    match m h with
    | (Returned a, h') => k a h'
    | (Raised e, h') => (Raised e, h')
    end.

Definition raise {S A} (e : exn) : M S A := fun h => (Raised e, h).
Definition gets {S A} (f : S -> A) : M S A := fun h => (Returned (f h), h).
Definition modify {S} (f : S -> S) : M S unit := fun h => (Returned tt, f h).

Definition lift {S A} (o : outcome A) : M S A := fun h => (o, h).

#[global] Instance M_mret S : MRet (M S) := @M_ret S.
#[global] Instance M_mbind S : MBind (M S) := @M_bind S.

(** [for x in xs: body(x)] *)
Fixpoint for_each {S A} (xs : list A) (body : A -> M S unit) : M S unit :=
  match xs with
  | [] => mret tt
  | x :: rest => body x ;; for_each rest body
  end.

(** A list comprehension whose element expression can raise. *)
Fixpoint comprehension {A B} (f : A -> outcome B) (xs : list A)
  : outcome (list B) :=
  match xs with
  | [] => Returned []
  | x :: rest =>
      match f x with
      | Raised e => Raised e
      | Returned y =>
          match comprehension f rest with
          | Raised e => Raised e
          | Returned ys => Returned (y :: ys)
          end
      end
  end.

(* ===================================================================== *)
(** * Values held by a host *)
(* ===================================================================== *)

(** What the property bag holds under the [sci:] keys: a string, or a list
    of string-to-string dictionaries. *)
Inductive value : Type :=
| VStr (s : string)
| VList (l : list (gmap string string)).

#[global] Instance value_eq_dec : EqDecision value.
Proof. solve_decision. Defined.

(** Truth value of an object in a condition: a string or a list is false
    exactly when it is empty. *)
Definition str_truthy (s : string) : bool := negb (String.eqb s "").

Definition list_truthy {A} (l : list A) : bool :=
  match l with
  | [] => false
  | _ :: _ => true
  end.

Definition truthy (v : value) : bool :=
  match v with
  | VStr s => str_truthy s
  | VList l => list_truthy l
  end.

Module link.

(** Modelled from the spec: [pystac.link.Link] is not part of this module; a
    link is its relation and its target. *)
Record Link : Type := { rel : string; target : string }.

#[global] Instance Link_eq_dec : EqDecision Link.
Proof. solve_decision. Defined.

End link.

(* ===================================================================== *)
(** * Publication *)
(* ===================================================================== *)

Module Publication.

Record t : Type := new { doi : string; citation : string }.

#[global] Instance t_eq_dec : EqDecision t.
Proof. solve_decision. Defined.

(** [__eq__] between two publications. *)
Definition eq (self other : t) : bool :=
  String.eqb (doi self) (doi other)
  && String.eqb (citation self) (citation other).

(** The dictionary [to_dict] returns, as a value. *)
Definition to_dict (self : t) : gmap string string :=
  <["doi" := doi self]> (<["citation" := citation self]> ∅).

(** [d[key]] *)
Definition getitem (d : gmap string string) (key : string) : outcome string :=
  match d !! key with
  | Some v => Returned v
  | None => Raised (KeyError key)
  end.

Definition from_dict (d : gmap string string) : outcome t :=
  match getitem d "doi" with
  | Raised e => Raised e
  | Returned the_doi =>
      match getitem d "citation" with
      | Raised e => Raised e
      | Returned the_citation => Returned (new the_doi the_citation)
      end
  end.

Definition get_link (self : t) : link.Link :=
  {| link.rel := CITE_AS; link.target := doi_to_url (doi self) |}.

End Publication.

(* ===================================================================== *)
(** * Link synchronizer *)
(* ===================================================================== *)

(** The loop of [remove_link]: the index at which [del links[i]] runs, when
    it does.  [i] is the index [enumerate] gives to the head of [ls]. *)
Fixpoint remove_link_scan (url : string) (i : nat) (ls : list link.Link)
  : option nat :=
  match ls with
  | [] => None
  | a_link :: rest =>
      if negb (String.eqb (link.rel a_link) CITE_AS)
      then remove_link_scan url (S i) rest
      else if String.eqb (link.target a_link) url
           then Some i
           else remove_link_scan url (S i) rest
  end.

Definition remove_link (links : list link.Link) (pub : Publication.t)
  : list link.Link :=
  let url := doi_to_url (Publication.doi pub) in
  match remove_link_scan url 0 links with
  | Some i => delete i links
  | None => links
  end.

(** [lst.remove(x)]: drops the first element equal to [x]; [None] stands
    for the [ValueError] raised when there is none. *)
Fixpoint list_remove {A} `{EqDecision A} (x : A) (l : list A)
  : option (list A) :=
  match l with
  | [] => None
  | y :: rest =>
      if decide (y = x) then Some rest
      else match list_remove x rest with
           | Some rest' => Some (y :: rest')
           | None => None
           end
  end.

(* ===================================================================== *)
(** * Hosts *)
(* ===================================================================== *)

Module item.

(** Modelled from the spec: [pystac.item.Item] is not part of this module;
    the adapter uses its property bag and its link sequence, and the
    extension index its list of enabled extensions ([None] when the item was
    made without one). *)
Record Item : Type := {
  properties : gmap string value;
  links : list link.Link;
  stac_extensions : option (list string)
}.

(** Modelled from the spec: [Item.add_link] appends to the link sequence. *)
Definition add_link (a_link : link.Link) : M Item unit :=
  modify (fun it =>
            {| properties := properties it; links := links it ++ [a_link];
               stac_extensions := stac_extensions it |}).

Definition set_links (f : list link.Link -> list link.Link) : M Item unit :=
  modify (fun it => {| properties := properties it; links := f (links it);
                       stac_extensions := stac_extensions it |}).

(** [properties[key] = v], [properties[key]] and [del properties[key]]. *)
Definition setitem (key : string) (v : value) : M Item unit :=
  modify (fun it =>
            {| properties := <[key := v]> (properties it); links := links it;
               stac_extensions := stac_extensions it |}).

Definition getitem (key : string) : M Item value :=
  fun it =>
    match properties it !! key with
    | Some v => (Returned v, it)
    | None => (Raised (KeyError key), it)
    end.

Definition delitem (key : string) : M Item unit :=
  fun it =>
    match properties it !! key with
    | Some _ =>
        (Returned tt,
         {| properties := delete key (properties it); links := links it;
            stac_extensions := stac_extensions it |})
    | None => (Raised (KeyError key), it)
    end.

(** Modelled from the spec: the extension facade [an_item.ext] of section
    6, which is not part of this module.  [an_item.ext.scientific] gives the
    adapter of the same item; pystac's index refuses a host that does not
    list the identifier among its [stac_extensions] with
    [ExtensionError]. *)
Definition implements (extension_id : string) (it : Item) : bool :=
  match stac_extensions it with
  | Some ids => bool_decide (extension_id ∈ ids)
  | None => false
  end.

Definition ext (extension_id : string) : M Item unit :=
  fun it =>
    if implements extension_id it then (Returned tt, it)
    else (Raised ExtensionError, it).

Definition blank : Item := {| properties := ∅; links := [];
                              stac_extensions := None |}.

End item.

Module collection.

(** Modelled from the spec: [pystac.collection.Collection] is not part of
    this module; the adapter uses its extra fields and its link sequence,
    and the extension index its list of enabled extensions. *)
Record Collection : Type := {
  extra_fields : gmap string value;
  links : list link.Link;
  stac_extensions : option (list string)
}.

(** Modelled from the spec: [Collection.add_link] appends to the link
    sequence. *)
Definition add_link (a_link : link.Link) : M Collection unit :=
  modify (fun c =>
            {| extra_fields := extra_fields c; links := links c ++ [a_link];
               stac_extensions := stac_extensions c |}).

Definition set_links (f : list link.Link -> list link.Link)
  : M Collection unit :=
  modify (fun c => {| extra_fields := extra_fields c; links := f (links c);
                      stac_extensions := stac_extensions c |}).

Definition setitem (key : string) (v : value) : M Collection unit :=
  modify (fun c =>
            {| extra_fields := <[key := v]> (extra_fields c);
               links := links c;
               stac_extensions := stac_extensions c |}).

Definition getitem (key : string) : M Collection value :=
  fun c =>
    match extra_fields c !! key with
    | Some v => (Returned v, c)
    | None => (Raised (KeyError key), c)
    end.

Definition delitem (key : string) : M Collection unit :=
  fun c =>
    match extra_fields c !! key with
    | Some _ =>
        (Returned tt,
         {| extra_fields := delete key (extra_fields c); links := links c;
            stac_extensions := stac_extensions c |})
    | None => (Raised (KeyError key), c)
    end.

(** Modelled from the spec: the extension facade [a_collection.ext], as
    for an item. *)
Definition implements (extension_id : string) (c : Collection) : bool :=
  match stac_extensions c with
  | Some ids => bool_decide (extension_id ∈ ids)
  | None => false
  end.

Definition ext (extension_id : string) : M Collection unit :=
  fun c =>
    if implements extension_id c then (Returned tt, c)
    else (Raised ExtensionError, c).

Definition blank : Collection := {| extra_fields := ∅; links := [];
                                    stac_extensions := None |}.

End collection.

(* ===================================================================== *)
(** * Pieces shared by the two adapters' embeddings *)
(* ===================================================================== *)

(** The argument of [doi_to_url(self.doi)]: [parse.quote] accepts a [str]
    and raises [TypeError] on anything else, [None] included. *)
Definition quote_arg (o : option value) : outcome string :=
  match o with
  | Some (VStr s) => Returned s
  | _ => Raised TypeError
  end.

(** [[Publication.from_dict(pub) for pub in stored]], where [stored] is what
    [.get(PUBLICATIONS, [])] gave.  Iterating a string yields one-character
    strings, which [from_dict] cannot index by a key. *)
Definition publications_of (stored : option value)
  : outcome (list Publication.t) :=
  match stored with
  | None => Returned []
  | Some (VList l) => comprehension Publication.from_dict l
  | Some (VStr s) => if String.eqb s "" then Returned [] else Raised TypeError
  end.

Arguments publications_of : simpl never.

(** [stored.remove(to_remove)] *)
Definition remove_from (stored : value) (to_remove : gmap string string)
  : outcome value :=
  match stored with
  | VList l =>
      match list_remove to_remove l with
      | Some l' => Returned (VList l')
      | None => Raised ValueError
      end
  | VStr _ => Raised AttributeError
  end.

(* ===================================================================== *)
(** * The adapter of an Item *)
(* ===================================================================== *)

Module ScientificItemExt.

Import item.

Definition doi : M Item (option value) :=
  gets (fun it => properties it !! DOI).

Definition set_doi (v : string) : M Item unit :=
  setitem DOI (VStr v) ;;
  current ← doi;
  arg ← lift (quote_arg current);
  let url := doi_to_url arg in
  add_link {| link.rel := CITE_AS; link.target := url |}.

Definition citation : M Item (option value) :=
  gets (fun it => properties it !! CITATION).

Definition set_citation (v : string) : M Item unit :=
  setitem CITATION (VStr v).

Definition publications : M Item (list Publication.t) :=
  stored ← gets (fun it => properties it !! PUBLICATIONS);
  lift (publications_of stored).

Definition set_publications (v : list Publication.t) : M Item unit :=
  setitem PUBLICATIONS (VList (map Publication.to_dict v)) ;;
  for_each v (fun pub => add_link (Publication.get_link pub)).

Definition apply (doi citation : option string)
    (publications : option (list Publication.t)) : M Item unit :=
  (match doi with
   | Some v => if str_truthy v then set_doi v else mret tt
   | None => mret tt
   end) ;;
  (match citation with
   | Some v => if str_truthy v then set_citation v else mret tt
   | None => mret tt
   end) ;;
  (match publications with
   | Some v => if list_truthy v then set_publications v else mret tt
   | None => mret tt
   end).

(** [publication] is [None] for the default argument; a [Publication]
    object is always true in a condition.  [self.item.ext.scientific] is
    looked up in the extension index and is the adapter of the same item,
    so the loop runs over [publications]. *)
Definition remove_publication (publication : option Publication.t)
  : M Item unit :=
  props ← gets properties;
  match props !! PUBLICATIONS with
  | None => mret tt
  | Some _ =>
      match publication with
      | None =>
          ext SCIENTIFIC ;;
          pubs ← publications;
          for_each pubs (fun one_pub =>
                           set_links (fun ls => remove_link ls one_pub)) ;;
          delitem PUBLICATIONS
      | Some pub =>
          set_links (fun ls => remove_link ls pub) ;;
          let to_remove := Publication.to_dict pub in
          stored ← getitem PUBLICATIONS;
          shortened ← lift (remove_from stored to_remove);
          setitem PUBLICATIONS shortened ;;
          now ← getitem PUBLICATIONS;
          if negb (truthy now) then delitem PUBLICATIONS else mret tt
      end
  end.

End ScientificItemExt.

(* ===================================================================== *)
(** * The adapter of a Collection *)
(* ===================================================================== *)

Module ScientificCollectionExt.

Import collection.

Definition doi : M Collection (option value) :=
  gets (fun c => extra_fields c !! DOI).

Definition set_doi (v : string) : M Collection unit :=
  setitem DOI (VStr v) ;;
  current ← doi;
  arg ← lift (quote_arg current);
  let url := doi_to_url arg in
  add_link {| link.rel := CITE_AS; link.target := url |}.

Definition citation : M Collection (option value) :=
  gets (fun c => extra_fields c !! CITATION).

Definition set_citation (v : string) : M Collection unit :=
  setitem CITATION (VStr v).

Definition publications : M Collection (list Publication.t) :=
  stored ← gets (fun c => extra_fields c !! PUBLICATIONS);
  lift (publications_of stored).

Definition set_publications (v : list Publication.t) : M Collection unit :=
  setitem PUBLICATIONS (VList (map Publication.to_dict v)) ;;
  for_each v (fun pub => add_link (Publication.get_link pub)).

Definition apply (doi citation : option string)
    (publications : option (list Publication.t)) : M Collection unit :=
  (match doi with
   | Some v => if str_truthy v then set_doi v else mret tt
   | None => mret tt
   end) ;;
  (match citation with
   | Some v => if str_truthy v then set_citation v else mret tt
   | None => mret tt
   end) ;;
  (match publications with
   | Some v => if list_truthy v then set_publications v else mret tt
   | None => mret tt
   end).

(** As for an item, with [self.collection.ext.scientific] the adapter of
    the same collection. *)
Definition remove_publication (publication : option Publication.t)
  : M Collection unit :=
  fields ← gets extra_fields;
  match fields !! PUBLICATIONS with
  | None => mret tt
  | Some _ =>
      match publication with
      | None =>
          ext SCIENTIFIC ;;
          pubs ← publications;
          for_each pubs (fun one_pub =>
                           set_links (fun ls => remove_link ls one_pub)) ;;
          delitem PUBLICATIONS
      | Some pub =>
          set_links (fun ls => remove_link ls pub) ;;
          let to_remove := Publication.to_dict pub in
          stored ← getitem PUBLICATIONS;
          shortened ← lift (remove_from stored to_remove);
          setitem PUBLICATIONS shortened ;;
          now ← getitem PUBLICATIONS;
          if negb (truthy now) then delitem PUBLICATIONS else mret tt
      end
  end.

End ScientificCollectionExt.

(* ===================================================================== *)
(** * Calls made by a client, one after the other *)
(* ===================================================================== *)

Inductive call : Type :=
| Apply (doi citation : option string)
    (publications : option (list Publication.t))
| GetDoi
| SetDoi (v : string)
| GetCitation
| SetCitation (v : string)
| GetPublications
| SetPublications (v : list Publication.t)
| RemovePublication (publication : option Publication.t).

(** What a call hands back to the client. *)
Inductive answer : Type :=
| ANone
| AField (v : option value)
| APublications (v : list Publication.t).

Definition answering {S A} (f : A -> answer) (m : M S A) : M S answer :=
  a ← m; mret (f a).

Definition run_item (c : call) : M item.Item answer :=
  match c with
  | Apply d ci ps => answering (fun _ => ANone) (ScientificItemExt.apply d ci ps)
  | GetDoi => answering AField ScientificItemExt.doi
  | SetDoi v => answering (fun _ => ANone) (ScientificItemExt.set_doi v)
  | GetCitation => answering AField ScientificItemExt.citation
  | SetCitation v =>
      answering (fun _ => ANone) (ScientificItemExt.set_citation v)
  | GetPublications => answering APublications ScientificItemExt.publications
  | SetPublications v =>
      answering (fun _ => ANone) (ScientificItemExt.set_publications v)
  | RemovePublication p =>
      answering (fun _ => ANone) (ScientificItemExt.remove_publication p)
  end.

Definition run_collection (c : call) : M collection.Collection answer :=
  match c with
  | Apply d ci ps =>
      answering (fun _ => ANone) (ScientificCollectionExt.apply d ci ps)
  | GetDoi => answering AField ScientificCollectionExt.doi
  | SetDoi v => answering (fun _ => ANone) (ScientificCollectionExt.set_doi v)
  | GetCitation => answering AField ScientificCollectionExt.citation
  | SetCitation v =>
      answering (fun _ => ANone) (ScientificCollectionExt.set_citation v)
  | GetPublications =>
      answering APublications ScientificCollectionExt.publications
  | SetPublications v =>
      answering (fun _ => ANone) (ScientificCollectionExt.set_publications v)
  | RemovePublication p =>
      answering (fun _ => ANone) (ScientificCollectionExt.remove_publication p)
  end.

(** A client that goes on after an exception: every call's outcome is
    recorded, and the next call runs on the host as the previous one left
    it. *)
Fixpoint session {S} (run : call -> M S answer) (cs : list call) (h : S)
  : list (outcome answer) * S :=
  match cs with
  | [] => ([], h)
  | c :: rest =>
      let '(o, h') := run c h in
      let '(os, h'') := session run rest h' in
      (o :: os, h'')
  end.

(** The same host seen as a collection. *)
Definition as_collection (it : item.Item) : collection.Collection :=
  {| collection.extra_fields := item.properties it;
     collection.links := item.links it;
     collection.stac_extensions := item.stac_extensions it |}.

Definition as_item (c : collection.Collection) : item.Item :=
  {| item.properties := collection.extra_fields c;
     item.links := collection.links c;
     item.stac_extensions := collection.stac_extensions c |}.

(* ===================================================================== *)
(** * Dictionaries as objects *)
(* ===================================================================== *)

Module Heap.

(** The dictionaries alive at some moment, by address.  An instance of
    [Publication] is the address of its attribute dictionary; the strings in
    a dictionary are immutable and held by value. *)
Abbreviation store := (gmap nat (gmap string string)).

Definition alloc (content : gmap string string) : M store nat :=
  fun st => let a := fresh (dom st) in (Returned a, <[a := content]> st).

(** [self.name] *)
Definition getattr (self : nat) (name : string) : M store string :=
  fun st =>
    match st !! self with
    | Some attrs =>
        match attrs !! name with
        | Some v => (Returned v, st)
        | None => (Raised AttributeError, st)
        end
    | None => (Raised AttributeError, st)
    end.

(** [Publication(doi, citation)] *)
Definition init (doi citation : string) : M store nat :=
  alloc (<["doi" := doi]> (<["citation" := citation]> ∅)).

(** [copy.deepcopy(d)] of a dictionary of strings: a new dictionary with
    the same items. *)
Definition deepcopy (d : nat) : M store nat :=
  fun st =>
    match st !! d with
    | Some content => alloc content st
    | None => (Raised TypeError, st)
    end.

(** [Publication.to_dict]: the dictionary display builds one object and
    [deepcopy] a second one, which is returned. *)
Definition to_dict (self : nat) : M store nat :=
  the_doi ← getattr self "doi";
  the_citation ← getattr self "citation";
  literal ← alloc (<["doi" := the_doi]> (<["citation" := the_citation]> ∅));
  deepcopy literal.

(** Any mutation of the dictionary at [d] ([d[k] = v], [del d[k]],
    [d.clear()], ...) replaces its content and touches nothing else. *)
Definition mutate (d : nat) (f : gmap string string -> gmap string string)
  : M store unit :=
  modify (alter f d).

Definition is_publication (st : store) (self : nat) (p : Publication.t)
  : Prop :=
  exists attrs, st !! self = Some attrs
    /\ attrs !! "doi" = Some (Publication.doi p)
    /\ attrs !! "citation" = Some (Publication.citation p).

End Heap.

(* ===================================================================== *)
(** * Predicates used in the statements *)
(* ===================================================================== *)

(** A link that [remove_link] looks for. *)
Definition cites (pub : Publication.t) (a_link : link.Link) : Prop :=
  link.rel a_link = CITE_AS
  /\ link.target a_link = doi_to_url (Publication.doi pub).

(** I2 on a property bag: under [sci:publications] there is nothing, or a
    non-empty list of serialized publications. *)
Definition serialized (d : gmap string string) : Prop :=
  exists pub, d = Publication.to_dict pub.

Definition I2 (props : gmap string value) : Prop :=
  forall v, props !! PUBLICATIONS = Some v ->
    exists l, v = VList l /\ l <> [] /\ Forall serialized l.

(** The calls under which I2 is kept: all but an assignment of the empty
    list to [publications]. *)
Definition keeps_I2 (c : call) : Prop :=
  match c with
  | SetPublications [] => False
  | _ => True
  end.

Definition is_digit (c : ascii) : bool :=
  Re.in_bracket [("0"%char, "9"%char)] c.

(** A group [.<digits>] with at least one digit. *)
Definition dot_group (g : list ascii) : Prop :=
  exists ds, g = "."%char :: ds /\ ds <> [] /\ forallb is_digit ds = true.

(** The shape of a valid DOI in the words of the specification: [10.],
    four digits, any number of groups, [/], one more character admitted by
    [after_slash], and whatever follows. *)
Definition doi_shape (after_slash : ascii -> bool) (doi : string) : Prop :=
  exists (ds : list ascii) (groups : list (list ascii)) (c : ascii)
         (trailing : list ascii),
    length ds = 4
    /\ forallb is_digit ds = true
    /\ Forall dot_group groups
    /\ after_slash c = true
    /\ chars doi
       = chars "10." ++ ds ++ concat groups ++ "/"%char :: c :: trailing.

Definition any_character (c : ascii) : bool := true.
Definition not_newline (c : ascii) : bool := Re.dot_ok c.

(** The DOI [10.1000/] followed by a line feed. *)
Definition doi_with_newline : string :=
  "10.1000/" +:+ String Re.newline EmptyString.

(** The link that goes with a DOI. *)
Definition the_link (v : string) : link.Link :=
  {| link.rel := CITE_AS; link.target := doi_to_url v |}.

(** Whether [apply] takes an argument as provided. *)
Definition str_given (d : option string) : bool :=
  match d with
  | Some v => str_truthy v
  | None => false
  end.

Definition pubs_given (ps : option (list Publication.t)) : bool :=
  match ps with
  | Some v => list_truthy v
  | None => false
  end.

(** What [apply] leaves under a key, and the links it appends. *)
Definition apply_field (given : bool) (v : value) (old : option value)
  : option value :=
  if given then Some v else old.

Definition apply_links (d : option string) (ps : option (list Publication.t))
  : list link.Link :=
  (if str_given d then [the_link (default "" d)] else [])
  ++ (if pubs_given ps then map Publication.get_link (default [] ps) else []).

(** [m2] does on a collection what [m1] does on the item with the same
    fields and links. *)
Definition sim {A} (m1 : M item.Item A) (m2 : M collection.Collection A)
  : Prop :=
  forall it, m2 (as_collection it) = (fst (m1 it), as_collection (snd (m1 it))).

(** Patterns that match exactly one character, taken from a class. *)
Definition one_of (r : Re.regex) (P : ascii -> bool) : Prop :=
  forall s, Re.Matches r s <-> exists c, s = [c] /\ P c = true.

(* ===================================================================== *)
(** * Sample hosts *)
(* ===================================================================== *)

Definition pub_a : Publication.t := Publication.new "10.5555/1" "A".
Definition pub_b : Publication.t := Publication.new "10.5555/2" "B".
Definition pub_z : Publication.t := Publication.new "10.9999/x" "Z".

(** A host holding [pub_a] and [pub_b] with their links. *)
Definition item_ab : item.Item :=
  snd (ScientificItemExt.set_publications [pub_a; pub_b] item.blank).

(** A host on which [pub_a] was stored twice. *)
Definition item_aba : item.Item :=
  snd (ScientificItemExt.set_publications [pub_a; pub_b; pub_a] item.blank).

(** A new item on which the extension was enabled, and the same holding
    [pub_a] and [pub_b] with their links. *)
Definition item_enabled : item.Item :=
  {| item.properties := ∅;
     item.links := [];
     item.stac_extensions := Some [SCIENTIFIC] |}.

Definition item_ab_enabled : item.Item :=
  snd (ScientificItemExt.set_publications [pub_a; pub_b] item_enabled).

(** An item with the extension enabled whose stored list holds a mapping
    without [citation]. *)
Definition item_half : item.Item :=
  {| item.properties :=
       <[PUBLICATIONS := VList [<["doi" := "10.5555/1"]> ∅]]> ∅;
     item.links := [];
     item.stac_extensions := Some [SCIENTIFIC] |}.

Definition sample_session : list call :=
  [SetPublications [pub_a; pub_b];
   RemovePublication (Some pub_a);
   Apply (Some "10.1000/182") (Some "") (Some []);
   RemovePublication (Some pub_b)].

(** A store in which address 0 is the instance [Publication("10.5555/1", "A")]. *)
Definition sample_store : gmap nat (gmap string string) :=
  snd (Heap.init "10.5555/1" "A" ∅).

(** Unfolding the plumbing of [M]. *)
Ltac run :=
  unfold mbind, mret, M_mbind, M_mret, M_bind, M_ret, raise, gets, modify,
    lift, answering in *; simpl in *.

(* ===================================================================== *)
(** * Further predicates used in the statements *)
(* ===================================================================== *)

#[global] Instance cites_dec pub a_link : Decision (cites pub a_link).
Proof. unfold cites. apply _. Defined.

(** A link with another relation than [cite-as]. *)
Definition other_rel (a_link : link.Link) : Prop := link.rel a_link <> CITE_AS.

#[global] Instance other_rel_dec a_link : Decision (other_rel a_link).
Proof. unfold other_rel. apply _. Defined.

(** What holds of a host after [remove_publication()] returned. *)
Definition cleared (before : gmap string value) (links : list link.Link)
    (after : gmap string value) (links' : list link.Link) : Prop :=
  after = delete PUBLICATIONS before
  /\ links' `sublist_of` links
  /\ filter other_rel links' = filter other_rel links.

(** The four ways [clear], a [remove_publication()], can go on a host [h]
    with property bag [props h], links [links h] and the extension enabled
    or not. *)
Definition clear_all_cases {S} (clear : M S unit)
    (props : S -> gmap string value) (links : S -> list link.Link)
    (enabled : S -> bool) (h : S) : Prop :=
  (fst (clear h) = Returned tt ->
   cleared (props h) (links h) (props (snd (clear h))) (links (snd (clear h))))
  /\ (props h !! PUBLICATIONS = None -> clear h = (Returned tt, h))
  /\ (is_Some (props h !! PUBLICATIONS) -> enabled h = false ->
      clear h = (Raised ExtensionError, h))
  /\ (forall e,
         enabled h = true ->
         publications_of (props h !! PUBLICATIONS) = Raised e ->
         clear h = (Raised e, h)).

(** The property bag after a list of mappings was shortened to [rest]. *)
Definition store_rest (rest : list (gmap string string))
    (props : gmap string value) : gmap string value :=
  match rest with
  | [] => delete PUBLICATIONS props
  | _ :: _ => <[PUBLICATIONS := VList rest]> props
  end.

(** Set a DOI, store one publication with the same DOI, try to remove a
    publication with that DOI and another citation, remove the stored one. *)
Definition out_of_step (d c1 c2 : string) : list call :=
  [SetDoi d;
   SetPublications [Publication.new d c1];
   RemovePublication (Some (Publication.new d c2));
   RemovePublication (Some (Publication.new d c1))].

(** The answer to [second] when it is called right after [first]. *)
Definition answer_after {S} (run : call -> M S answer) (first second : call)
    (h : S) : outcome answer :=
  fst (run second (snd (run first h))).

(** Each setter is seen by its own getter and by no other. *)
Definition setters_independent {S} (run : call -> M S answer)
    (links : S -> list link.Link) (v : string) (ps : list Publication.t)
    (h : S) : Prop :=
  answer_after run (SetDoi v) GetDoi h = Returned (AField (Some (VStr v)))
  /\ answer_after run (SetDoi v) GetCitation h = fst (run GetCitation h)
  /\ answer_after run (SetDoi v) GetPublications h = fst (run GetPublications h)
  /\ answer_after run (SetCitation v) GetCitation h
     = Returned (AField (Some (VStr v)))
  /\ answer_after run (SetCitation v) GetDoi h = fst (run GetDoi h)
  /\ answer_after run (SetCitation v) GetPublications h
     = fst (run GetPublications h)
  /\ links (snd (run (SetCitation v) h)) = links h
  /\ answer_after run (SetPublications ps) GetDoi h = fst (run GetDoi h)
  /\ answer_after run (SetPublications ps) GetCitation h
     = fst (run GetCitation h).

(** Characters that [quote] leaves as they are. *)
Definition kept (c : ascii) : bool := parse.always_safe c || Ascii.eqb c "/".

(** Characters a URL made by [doi_to_url] can contain. *)
Definition url_char (c : ascii) : bool :=
  kept c || Ascii.eqb c ":" || Ascii.eqb c "%".

(** The value of an upper-case hexadecimal digit. *)
Definition hex_value (c : ascii) : option nat :=
  let n := Ascii.nat_of_ascii c in
  if (48 <=? n) && (n <=? 57) then Some (n - 48)
  else if (65 <=? n) && (n <=? 70) then Some (n - 55)
  else None.

(** The percent-encoded forms of a text in which [/] is left unescaped, in
    the words of the specification: byte after byte, the byte is left as it
    is, or replaced by [%] and the two upper-case hexadecimal digits of its
    value; [/] is never replaced and [%] always is. *)
Inductive path_quoted : string -> string -> Prop :=
| pq_nil : path_quoted EmptyString EmptyString
| pq_left c s t :
    c <> "%"%char ->
    path_quoted s t ->
    path_quoted (String c s) (String c t)
| pq_escaped c hi lo s t :
    c <> "/"%char ->
    hex_value hi = Some (Ascii.nat_of_ascii c / 16) ->
    hex_value lo = Some (Ascii.nat_of_ascii c mod 16) ->
    path_quoted s t ->
    path_quoted (String c s) (String "%" (String hi (String lo t))).

(** Decoding of a percent-encoded text; [None] when a [%] is not followed
    by two upper-case hexadecimal digits. *)
Fixpoint unquote (t : string) : option string :=
  match t with
  | EmptyString => Some EmptyString
  | String c rest =>
      if Ascii.eqb c "%"
      then match rest with
           | String hi (String lo rest') =>
               match hex_value hi, hex_value lo, unquote rest' with
               | Some a, Some b, Some s =>
                   Some (String (Ascii.ascii_of_nat (16 * a + b)) s)
               | _, _, _ => None
               end
           | _ => None
           end
      else match unquote rest with
           | Some s => Some (String c s)
           | None => None
           end
  end.

(** A DOI suffix with a space, a [%], angle brackets and the two bytes of
    an e with acute accent. *)
Definition awkward_doi : string :=
  "10.1000/a b%<"
  +:+ String (Ascii.ascii_of_nat 195) (String (Ascii.ascii_of_nat 169) ">").

(** [Publication.__repr__] *)
Definition Publication_repr (self : Publication.t) : string :=
  "<Publication doi=" +:+ Publication.doi self
  +:+ " target=" +:+ Publication.citation self +:+ ">".

(* ===================================================================== *)
(** * The matcher agrees with the language of a pattern *)
(* ===================================================================== *)

Module ReFacts.

Import Re.

Lemma cat_inv r1 r2 s :
  Matches (Cat r1 r2) s ->
  exists s1 s2, s = s1 ++ s2 /\ Matches r1 s1 /\ Matches r2 s2.
Proof. inversion 1; subst; eauto. Qed.

Lemma alt_inv r1 r2 s : Matches (Alt r1 r2) s -> Matches r1 s \/ Matches r2 s.
Proof. inversion 1; subst; auto. Qed.

Lemma chr_inv c s : Matches (Chr c) s -> s = [c].
Proof. inversion 1; subst; auto. Qed.

Lemma bracket_inv rs s :
  Matches (Bracket rs) s -> exists c, s = [c] /\ in_bracket rs c = true.
Proof. inversion 1; subst; eauto. Qed.

Lemma dot_inv s : Matches Dot s -> exists c, s = [c] /\ dot_ok c = true.
Proof. inversion 1; subst; eauto. Qed.

Lemma eps_inv s : Matches Eps s -> s = [].
Proof. inversion 1; subst; auto. Qed.

Lemma void_inv s : ~ Matches Void s.
Proof. inversion 1. Qed.

Lemma cat_cons r1 r2 c s1 s2 :
  Matches r1 (c :: s1) -> Matches r2 s2 -> Matches (Cat r1 r2) (c :: s1 ++ s2).
Proof. intros H1 H2. apply (MCat r1 r2 (c :: s1) s2 H1 H2). Qed.

Lemma nullable_spec r : nullable r = true <-> Matches r [].
Proof.
  induction r; simpl.
  - split; [discriminate | intros H; destruct (void_inv _ H)].
  - split; [constructor | reflexivity].
  - split; [discriminate | intros H; apply chr_inv in H; discriminate].
  - split; [discriminate | intros H; apply bracket_inv in H as (c & E & _); discriminate].
  - split; [discriminate | intros H; apply dot_inv in H as (c & E & _); discriminate].
  - rewrite andb_true_iff, IHr1, IHr2. split.
    + intros [H1 H2]. apply (MCat r1 r2 [] [] H1 H2).
    + intros H. apply cat_inv in H as (s1 & s2 & E & H1 & H2).
      symmetry in E. apply app_eq_nil in E as [-> ->]. auto.
  - rewrite orb_true_iff, IHr1, IHr2. split.
    + intros [H|H]; [apply MAltL | apply MAltR]; auto.
    + apply alt_inv.
  - split; [constructor | reflexivity].
Qed.

Lemma star_cons_inv r c s :
  Matches (Star r) (c :: s) ->
  exists s1 s2, s = s1 ++ s2 /\ Matches r (c :: s1) /\ Matches (Star r) s2.
Proof.
  intros H. remember (Star r) as r' eqn:Er. remember (c :: s) as w eqn:Ew.
  induction H as [| | | | | | | |r0 s1 s2 H1 _ H2 IH]; try discriminate.
  injection Er as Er. subst r0. destruct s1 as [|c1 s1]; simpl in Ew.
  - apply IH; auto.
  - injection Ew as Ec Es. subst c1 s. eauto.
Qed.

Lemma deriv_spec c r : forall s, Matches (deriv c r) s <-> Matches r (c :: s).
Proof.
  induction r; intros s; simpl.
  - split; intros H; destruct (void_inv _ H).
  - split; intros H; [destruct (void_inv _ H) | apply eps_inv in H; discriminate].
  - destruct (Ascii.eqb_spec c c0) as [->|Hne]; split; intros H.
    + apply eps_inv in H as ->. constructor.
    + apply chr_inv in H. injection H as ->. constructor.
    + destruct (void_inv _ H).
    + apply chr_inv in H. congruence.
  - destruct (in_bracket ranges c) eqn:E; split; intros H.
    + apply eps_inv in H as ->. constructor; auto.
    + apply bracket_inv in H as (c' & E' & _). injection E' as -> ->. constructor.
    + destruct (void_inv _ H).
    + apply bracket_inv in H as (c' & E' & H). injection E' as -> ->. congruence.
  - destruct (dot_ok c) eqn:E; split; intros H.
    + apply eps_inv in H as ->. constructor; auto.
    + apply dot_inv in H as (c' & E' & _). injection E' as -> ->. constructor.
    + destruct (void_inv _ H).
    + apply dot_inv in H as (c' & E' & H). injection E' as -> ->. congruence.
  - assert (Hcons : Matches (Cat (deriv c r1) r2) s -> Matches (Cat r1 r2) (c :: s)).
    { intros H. apply cat_inv in H as (s1 & s2 & -> & H1 & H2).
      apply cat_cons; auto. apply IHr1; auto. }
    destruct (nullable r1) eqn:N; split; intros H.
    + apply alt_inv in H as [H|H]; auto.
      apply (MCat r1 r2 [] (c :: s)); [apply nullable_spec; auto | apply IHr2; auto].
    + apply cat_inv in H as (s1 & s2 & E & H1 & H2).
      destruct s1 as [|c1 s1]; simpl in E.
      * subst s2. apply MAltR, IHr2; auto.
      * injection E as <- ->. apply MAltL. constructor; auto. apply IHr1; auto.
    + auto.
    + apply cat_inv in H as (s1 & s2 & E & H1 & H2).
      destruct s1 as [|c1 s1]; simpl in E.
      * apply nullable_spec in H1. congruence.
      * injection E as <- ->. constructor; auto. apply IHr1; auto.
  - split; intros H; apply alt_inv in H as [H|H].
    + apply MAltL, IHr1; auto.
    + apply MAltR, IHr2; auto.
    + apply MAltL, IHr1; auto.
    + apply MAltR, IHr2; auto.
  - split; intros H.
    + apply cat_inv in H as (s1 & s2 & -> & H1 & H2).
      apply (MStarCons r (c :: s1) s2); auto. apply IHr; auto.
    + apply star_cons_inv in H as (s1 & s2 & -> & H1 & H2).
      constructor; auto. apply IHr; auto.
Qed.

Lemma match_prefix_spec s : forall r,
  match_prefix r s = true <-> exists p q, s = p ++ q /\ Matches r p.
Proof.
  induction s as [|c s IH]; intros r; simpl.
  - rewrite orb_false_r, nullable_spec. split.
    + intros H. exists [], []. auto.
    + intros (p & q & E & H). symmetry in E. apply app_eq_nil in E as [-> ->]. auto.
  - rewrite orb_true_iff, nullable_spec, IH. split.
    + intros [H | (p & q & -> & H)].
      * exists [], (c :: s). auto.
      * exists (c :: p), q. split; auto. apply deriv_spec; auto.
    + intros (p & q & E & H). destruct p as [|c' p]; simpl in E.
      * left; auto.
      * injection E as <- ->. right. exists p, q. split; auto. apply deriv_spec; auto.
Qed.

Lemma star_inv_concat r s :
  Matches (Star r) s ->
  exists pieces, s = concat pieces /\ Forall (Matches r) pieces.
Proof.
  intros H. remember (Star r) as r' eqn:Er.
  induction H as [| | | | | | | |r0 s1 s2 H1 _ H2 IH]; try discriminate.
  - exists []. split; [reflexivity | constructor].
  - injection Er as Er. subst r0. destruct (IH eq_refl) as (ps & -> & Hps).
    exists (s1 :: ps). split; [reflexivity | constructor; auto].
Qed.

Lemma star_concat r pieces :
  Forall (Matches r) pieces -> Matches (Star r) (concat pieces).
Proof.
  induction 1 as [|p ps Hp _ IH]; simpl; [constructor | constructor; auto].
Qed.

Lemma one_of_bracket rs : one_of (Bracket rs) (in_bracket rs).
Proof.
  intros s. split; [apply bracket_inv |].
  intros (c & -> & H). constructor; auto.
Qed.

Lemma one_of_dot : one_of Dot dot_ok.
Proof.
  intros s. split; [apply dot_inv |].
  intros (c & -> & H). constructor; auto.
Qed.

Lemma star_one_of r P s :
  one_of r P -> Matches (Star r) s <-> forallb P s = true.
Proof.
  intros Hr. split.
  - intros H. apply star_inv_concat in H as (ps & -> & Hps).
    induction Hps as [|p ps Hp _ IH]; simpl; auto.
    apply Hr in Hp as (c & -> & Hc). simpl. rewrite Hc; auto.
  - induction s as [|c s IH]; simpl; intros H.
    + constructor.
    + apply andb_true_iff in H as [Hc Hs].
      apply (MStarCons r [c] s); auto. apply Hr; eauto.
Qed.

Lemma plus_one_of r P s :
  one_of r P -> Matches (Plus r) s <-> s <> [] /\ forallb P s = true.
Proof.
  intros Hr. unfold Plus. split.
  - intros H. apply cat_inv in H as (s1 & s2 & -> & H1 & H2).
    apply Hr in H1 as (c & -> & Hc). apply (star_one_of r P s2 Hr) in H2.
    simpl. rewrite Hc, H2. split; [discriminate | reflexivity].
  - intros [Hne H]. destruct s as [|c s]; [congruence |]. simpl in H.
    apply andb_true_iff in H as [Hc Hs].
    apply (MCat r (Star r) [c] s); [apply Hr; eauto | apply (star_one_of r P s Hr); auto].
Qed.

Lemma repeat_one_of r P n : forall s,
  one_of r P ->
  Matches (Repeat n r) s <-> length s = n /\ forallb P s = true.
Proof.
  induction n as [|n IH]; intros s Hr; simpl.
  - split.
    + intros H. apply eps_inv in H as ->. auto.
    + intros [H _]. destruct s; [constructor | discriminate].
  - split.
    + intros H. apply cat_inv in H as (s1 & s2 & -> & H1 & H2).
      apply Hr in H1 as (c & -> & Hc). apply IH in H2 as [Hl Hs]; auto.
      simpl. rewrite Hc, Hs, Hl. auto.
    + intros [Hl H]. destruct s as [|c s]; [discriminate |]. simpl in *.
      apply andb_true_iff in H as [Hc Hs].
      apply (MCat r (Repeat n r) [c] s); [apply Hr; eauto | apply IH; auto].
Qed.

Lemma in_bracket_single a c : in_bracket [(a, a)] c = true <-> c = a.
Proof.
  unfold in_bracket, in_range. simpl. rewrite orb_false_r, andb_true_iff.
  rewrite !Nat.leb_le. split.
  - intros [H1 H2]. rewrite <- (ascii_nat_embedding c), <- (ascii_nat_embedding a).
    f_equal. lia.
  - intros ->. lia.
Qed.

End ReFacts.

Import Re ReFacts.

Lemma dot_group_matches g :
  Matches (Cat (Bracket [("."%char, "."%char)]) (Plus (Bracket [("0"%char, "9"%char)]))) g
  <-> dot_group g.
Proof.
  unfold dot_group. split.
  - intros H. apply cat_inv in H as (s1 & s2 & -> & H1 & H2).
    apply bracket_inv in H1 as (c & -> & Hc). apply in_bracket_single in Hc as ->.
    apply (plus_one_of _ _ s2 (one_of_bracket _)) in H2 as [Hne Hd].
    exists s2. auto.
  - intros (ds & -> & Hne & Hd).
    apply (MCat _ _ ["."%char] ds).
    + constructor. reflexivity.
    + apply (plus_one_of _ _ ds (one_of_bracket _)). auto.
Qed.

Lemma DOI_REGEX_language p :
  Matches DOI_REGEX p <->
  exists ds groups body,
    length ds = 4 /\ forallb is_digit ds = true /\ Forall dot_group groups
    /\ body <> [] /\ forallb dot_ok body = true
    /\ p = chars "10." ++ ds ++ concat groups ++ "/"%char :: body.
Proof.
  unfold DOI_REGEX. cbv zeta. split.
  - intros H.
    apply cat_inv in H as (a1 & p1 & -> & H1 & H).
    apply cat_inv in H as (a2 & p2 & -> & H2 & H).
    apply cat_inv in H as (a3 & p3 & -> & H3 & H).
    apply cat_inv in H as (ds & p4 & -> & H4 & H).
    apply cat_inv in H as (gs & p5 & -> & H5 & H).
    apply cat_inv in H as (a6 & body & -> & H6 & H7).
    apply chr_inv in H1 as ->. apply chr_inv in H2 as ->. apply chr_inv in H6 as ->.
    apply bracket_inv in H3 as (c & -> & Hc). apply in_bracket_single in Hc as ->.
    apply (repeat_one_of _ _ 4 ds (one_of_bracket _)) in H4 as [Hl Hd].
    apply star_inv_concat in H5 as (groups & -> & Hg).
    apply (plus_one_of _ _ body one_of_dot) in H7 as [Hne Hb].
    exists ds, groups, body. repeat split; auto.
    eapply Forall_impl; [exact Hg |]. intros g. apply dot_group_matches.
  - intros (ds & groups & body & Hl & Hd & Hg & Hne & Hb & ->).
    apply (MCat _ _ ["1"%char]); [constructor |].
    apply (MCat _ _ ["0"%char]); [constructor |].
    apply (MCat _ _ ["."%char]); [constructor; reflexivity |].
    apply MCat; [apply (repeat_one_of _ _ 4 ds (one_of_bracket _)); auto |].
    apply MCat.
    + apply star_concat. eapply Forall_impl; [exact Hg |]. intros g. apply dot_group_matches.
    + apply (MCat _ _ ["/"%char]); [constructor |].
      apply (plus_one_of _ _ body one_of_dot); auto.
Qed.

Lemma is_doi_valid_shape doi :
  is_doi_valid doi = true <-> doi_shape not_newline doi.
Proof.
  unfold is_doi_valid, re_match, doi_shape, not_newline.
  rewrite match_prefix_spec. split.
  - intros (p & q & E & H). apply DOI_REGEX_language in H as
      (ds & groups & body & Hl & Hd & Hg & Hne & Hb & ->).
    destruct body as [|c body]; [congruence |]. simpl in Hb.
    apply andb_true_iff in Hb as [Hc Hb].
    exists ds, groups, c, (body ++ q). repeat split; auto.
    rewrite E. simpl. rewrite <- ?app_assoc. simpl. rewrite <- ?app_assoc. reflexivity.
  - intros (ds & groups & c & trailing & Hl & Hd & Hg & Hc & E).
    exists (chars "10." ++ ds ++ concat groups ++ ["/"%char; c]), trailing. split.
    + rewrite E. simpl. rewrite <- ?app_assoc. simpl. rewrite <- ?app_assoc. reflexivity.
    + apply DOI_REGEX_language. exists ds, groups, [c]. repeat split; auto.
      simpl. rewrite Hc. reflexivity.
Qed.

(* ===================================================================== *)
(** * The link synchronizer and [list.remove] *)
(* ===================================================================== *)

Lemma keys_distinct :
  DOI <> CITATION /\ DOI <> PUBLICATIONS /\ CITATION <> PUBLICATIONS.
Proof. repeat split; discriminate. Qed.

Lemma remove_link_scan_spec url ls : forall i,
  match remove_link_scan url i ls with
  | Some j =>
      exists before a_link after,
        ls = before ++ a_link :: after
        /\ j = i + length before
        /\ link.rel a_link = CITE_AS /\ link.target a_link = url
        /\ Forall (fun l => ~ (link.rel l = CITE_AS /\ link.target l = url))
             before
  | None =>
      Forall (fun l => ~ (link.rel l = CITE_AS /\ link.target l = url)) ls
  end.
Proof.
  induction ls as [|a ls IH]; intros i; simpl.
  - constructor.
  - destruct (String.eqb_spec (link.rel a) CITE_AS) as [Hr|Hr]; simpl.
    + destruct (String.eqb_spec (link.target a) url) as [Ht|Ht].
      * exists [], a, ls. simpl. repeat split; auto.
      * specialize (IH (S i)). destruct (remove_link_scan url (S i) ls).
        -- destruct IH as (b & x & af & -> & -> & H1 & H2 & H3).
           exists (a :: b), x, af. simpl. repeat split; auto; try lia.
           constructor; auto. tauto.
        -- constructor; auto. tauto.
    + specialize (IH (S i)). destruct (remove_link_scan url (S i) ls).
      * destruct IH as (b & x & af & -> & -> & H1 & H2 & H3).
        exists (a :: b), x, af. simpl. repeat split; auto; try lia.
        constructor; auto. tauto.
      * constructor; auto. tauto.
Qed.

Lemma remove_link_cases links pub :
  (exists before a_link after,
      links = before ++ a_link :: after
      /\ cites pub a_link
      /\ Forall (fun l => ~ cites pub l) before
      /\ remove_link links pub = before ++ after)
  \/ (Forall (fun l => ~ cites pub l) links /\ remove_link links pub = links).
Proof.
  unfold remove_link, cites.
  pose proof (remove_link_scan_spec (doi_to_url (Publication.doi pub)) links 0) as H.
  destruct (remove_link_scan _ 0 links) as [j|].
  - left. destruct H as (b & x & af & -> & -> & H1 & H2 & H3).
    exists b, x, af. repeat split; auto. simpl. apply delete_middle.
  - right. auto.
Qed.

Lemma list_remove_spec {A} `{EqDecision A} (x : A) l :
  match list_remove x l with
  | Some l' =>
      exists before after,
        l = before ++ x :: after /\ (x ∉ before) /\ l' = before ++ after
  | None => x ∉ l
  end.
Proof.
  induction l as [|y l IH]; simpl.
  - apply not_elem_of_nil.
  - destruct (decide (y = x)) as [->|Hne].
    + exists [], l. repeat split; auto. apply not_elem_of_nil.
    + destruct (list_remove x l) as [l'|].
      * destruct IH as (b & af & -> & Hb & ->).
        exists (y :: b), af. repeat split; auto.
        rewrite not_elem_of_cons. auto.
      * rewrite not_elem_of_cons. auto.
Qed.

Lemma list_remove_absent {A} `{EqDecision A} (x : A) l :
  x ∉ l -> list_remove x l = None.
Proof.
  intros Hx. pose proof (list_remove_spec x l) as H.
  destruct (list_remove x l) as [l'|]; [| reflexivity].
  destruct H as (b & af & -> & _ & _). exfalso. apply Hx.
  apply elem_of_app. right. apply elem_of_cons. auto.
Qed.

Lemma list_remove_first {A} `{EqDecision A} (x : A) before after :
  x ∉ before -> list_remove x (before ++ x :: after) = Some (before ++ after).
Proof.
  induction before as [|y b IH]; simpl; intros Hx.
  - destruct (decide (x = x)); [reflexivity | congruence].
  - apply not_elem_of_cons in Hx as [Hne Hb].
    destruct (decide (y = x)); [congruence |]. rewrite IH; auto.
Qed.

Lemma remove_link_first links pub before a_link after :
  links = before ++ a_link :: after ->
  cites pub a_link ->
  Forall (fun l => ~ cites pub l) before ->
  remove_link links pub = before ++ after.
Proof.
  intros -> Ha Hb.
  destruct (remove_link_cases (before ++ a_link :: after) pub)
    as [(b & x & af & E & Hx & Hnb & ->) | [Hall _]].
  - assert (Hlen : length b = length before).
    { destruct (Nat.lt_trichotomy (length b) (length before)) as [Hl|[Hl|Hl]];
        auto; exfalso.
      - assert (before !! length b = Some x) as Hin.
        { rewrite <- (lookup_app_l before (a_link :: after)) by auto.
          rewrite E. apply list_lookup_middle. reflexivity. }
        rewrite Forall_forall in Hb. apply (Hb x); auto.
        apply list_elem_of_lookup. eauto.
      - assert (b !! length before = Some a_link) as Hin.
        { rewrite <- (lookup_app_l b (x :: af)) by auto.
          rewrite <- E. apply list_lookup_middle. reflexivity. }
        rewrite Forall_forall in Hnb. apply (Hnb a_link); auto.
        apply list_elem_of_lookup. eauto. }
    apply app_inj_1 in E as [-> E]; auto. injection E as _ ->. reflexivity.
  - exfalso. rewrite Forall_forall in Hall. apply (Hall a_link); auto.
    apply elem_of_app. right. apply elem_of_cons. auto.
Qed.

Lemma app_String c (a b : string) : String c a +:+ b = String c (a +:+ b).
Proof. reflexivity. Qed.

Lemma string_app_assoc (a b c : string) : (a +:+ b) +:+ c = a +:+ b +:+ c.
Proof.
  induction a as [|x a IH]; [reflexivity |].
  rewrite !app_String, IH. reflexivity.
Qed.

Lemma quote_with_app safe a b :
  parse.quote_with safe (a +:+ b)
  = parse.quote_with safe a +:+ parse.quote_with safe b.
Proof.
  induction a as [|c a IH]; [reflexivity |].
  rewrite app_String. simpl.
  destruct (parse.always_safe c || safe c);
    rewrite IH, ?app_String, ?string_app_assoc; reflexivity.
Qed.

(* ===================================================================== *)
(** * The collection adapter does what the item adapter does *)
(* ===================================================================== *)

Lemma sim_ret {A} (a : A) : sim (mret a) (mret a).
Proof. intros it. reflexivity. Qed.

Lemma sim_lift {A} (o : outcome A) : sim (lift o) (lift o).
Proof. intros it. reflexivity. Qed.

Lemma sim_bind {A B} (m1 : M item.Item A) m2 (k1 : A -> M item.Item B) k2 :
  sim m1 m2 -> (forall a, sim (k1 a) (k2 a)) -> sim (m1 ≫= k1) (m2 ≫= k2).
Proof.
  intros Hm Hk it. run. rewrite Hm. destruct (m1 it) as [[a|e] it']; simpl.
  - apply Hk.
  - reflexivity.
Qed.

Lemma sim_for_each {A} (xs : list A) (b1 : A -> M item.Item unit) b2 :
  (forall x, sim (b1 x) (b2 x)) -> sim (for_each xs b1) (for_each xs b2).
Proof.
  intros Hb. induction xs as [|x xs IH]; simpl.
  - apply sim_ret.
  - apply sim_bind; auto.
Qed.

Lemma sim_add_link l : sim (item.add_link l) (collection.add_link l).
Proof. intros it. reflexivity. Qed.

Lemma sim_set_links f : sim (item.set_links f) (collection.set_links f).
Proof. intros it. reflexivity. Qed.

Lemma sim_setitem k v : sim (item.setitem k v) (collection.setitem k v).
Proof. intros it. reflexivity. Qed.

Lemma sim_getitem k : sim (item.getitem k) (collection.getitem k).
Proof.
  intros it. unfold item.getitem, collection.getitem. simpl.
  destruct (item.properties it !! k); reflexivity.
Qed.

Lemma sim_delitem k : sim (item.delitem k) (collection.delitem k).
Proof.
  intros it. unfold item.delitem, collection.delitem. simpl.
  destruct (item.properties it !! k); reflexivity.
Qed.

Lemma sim_ext extension_id :
  sim (item.ext extension_id) (collection.ext extension_id).
Proof.
  intros it. unfold item.ext, collection.ext, item.implements,
    collection.implements. simpl.
  destruct (item.stac_extensions it) as [ids|]; [| reflexivity].
  destruct (bool_decide (extension_id ∈ ids)); reflexivity.
Qed.

Lemma sim_gets {A} (f : gmap string value -> A) :
  sim (gets (fun it => f (item.properties it)))
      (gets (fun c => f (collection.extra_fields c))).
Proof. intros it. reflexivity. Qed.

Lemma sim_set_doi v :
  sim (ScientificItemExt.set_doi v) (ScientificCollectionExt.set_doi v).
Proof.
  unfold ScientificItemExt.set_doi, ScientificCollectionExt.set_doi.
  apply sim_bind; [apply sim_setitem | intros _].
  apply sim_bind; [apply (sim_gets (fun p => p !! DOI)) | intros cur].
  apply sim_bind; [apply sim_lift | intros arg]. apply sim_add_link.
Qed.

Lemma sim_set_citation v :
  sim (ScientificItemExt.set_citation v) (ScientificCollectionExt.set_citation v).
Proof. apply sim_setitem. Qed.

Lemma sim_publications :
  sim ScientificItemExt.publications ScientificCollectionExt.publications.
Proof.
  apply sim_bind; [apply (sim_gets (fun p => p !! PUBLICATIONS)) | intros st].
  apply sim_lift.
Qed.

Lemma sim_set_publications v :
  sim (ScientificItemExt.set_publications v)
      (ScientificCollectionExt.set_publications v).
Proof.
  apply sim_bind; [apply sim_setitem | intros _].
  apply sim_for_each. intros pub. apply sim_add_link.
Qed.

Lemma sim_apply d ci ps :
  sim (ScientificItemExt.apply d ci ps) (ScientificCollectionExt.apply d ci ps).
Proof.
  unfold ScientificItemExt.apply, ScientificCollectionExt.apply.
  apply sim_bind; [| intros _; apply sim_bind; [| intros _]].
  - destruct d as [v|]; [destruct (str_truthy v) |];
      auto using sim_ret, sim_set_doi.
  - destruct ci as [v|]; [destruct (str_truthy v) |];
      auto using sim_ret, sim_set_citation.
  - destruct ps as [v|]; [destruct (list_truthy v) |];
      auto using sim_ret, sim_set_publications.
Qed.

Lemma sim_remove_publication p :
  sim (ScientificItemExt.remove_publication p)
      (ScientificCollectionExt.remove_publication p).
Proof.
  unfold ScientificItemExt.remove_publication,
    ScientificCollectionExt.remove_publication.
  apply sim_bind; [apply (sim_gets (fun p => p)) | intros props].
  destruct (props !! PUBLICATIONS); [| apply sim_ret].
  destruct p as [pub|].
  - apply sim_bind; [apply sim_set_links | intros _].
    apply sim_bind; [apply sim_getitem | intros stored].
    apply sim_bind; [apply sim_lift | intros shortened].
    apply sim_bind; [apply sim_setitem | intros _].
    apply sim_bind; [apply sim_getitem | intros now].
    destruct (negb (truthy now)); [apply sim_delitem | apply sim_ret].
  - apply sim_bind; [apply sim_ext | intros _].
    apply sim_bind; [apply sim_publications | intros pubs].
    apply sim_bind; [| intros _; apply sim_delitem].
    apply sim_for_each. intros one. apply sim_set_links.
Qed.

Lemma sim_answering {A} (f : A -> answer) m1 m2 :
  sim m1 m2 -> sim (answering f m1) (answering f m2).
Proof. intros H. apply sim_bind; [exact H | intros a; apply sim_ret]. Qed.

Lemma sim_run c : sim (run_item c) (run_collection c).
Proof.
  destruct c; simpl; apply sim_answering;
    auto using sim_apply, sim_set_doi, sim_set_citation, sim_publications,
      sim_set_publications, sim_remove_publication.
  - apply (sim_gets (fun p => p !! DOI)).
  - apply (sim_gets (fun p => p !! CITATION)).
Qed.

Lemma sim_session cs : forall it,
  session run_collection cs (as_collection it)
  = (fst (session run_item cs it), as_collection (snd (session run_item cs it))).
Proof.
  induction cs as [|c cs IH]; intros it; simpl.
  - reflexivity.
  - rewrite sim_run. destruct (run_item c it) as [o it']. simpl.
    rewrite IH. destruct (session run_item cs it') as [os it'']. reflexivity.
Qed.

Lemma as_collection_as_item c : as_collection (as_item c) = c.
Proof. destruct c; reflexivity. Qed.

Lemma as_item_as_collection it : as_item (as_collection it) = it.
Proof. destruct it; reflexivity. Qed.

Lemma sim_on_collection {A} (m1 : M item.Item A) m2 c :
  sim m1 m2 ->
  m2 c = (fst (m1 (as_item c)), as_collection (snd (m1 (as_item c)))).
Proof. intros H. rewrite <- H, as_collection_as_item. reflexivity. Qed.

(* ===================================================================== *)
(** * What the item adapter computes *)
(* ===================================================================== *)

Import item.

Lemma set_doi_run v it :
  ScientificItemExt.set_doi v it
  = (Returned tt,
     {| properties := <[DOI := VStr v]> (properties it);
        links := links it
                 ++ [{| link.rel := CITE_AS; link.target := doi_to_url v |}];
        stac_extensions := stac_extensions it |}).
Proof.
  unfold ScientificItemExt.set_doi, ScientificItemExt.doi, setitem, add_link.
  run. rewrite lookup_insert_eq. reflexivity.
Qed.

Lemma set_citation_run v it :
  ScientificItemExt.set_citation v it
  = (Returned tt,
     {| properties := <[CITATION := VStr v]> (properties it);
        links := links it;
        stac_extensions := stac_extensions it |}).
Proof. reflexivity. Qed.

Lemma add_links_run (v : list Publication.t) : forall it,
  for_each v (fun pub => add_link (Publication.get_link pub)) it
  = (Returned tt,
     {| properties := properties it;
        links := links it ++ map Publication.get_link v;
        stac_extensions := stac_extensions it |}).
Proof.
  induction v as [|pub v IH]; intros it; simpl.
  - rewrite app_nil_r. destruct it; reflexivity.
  - run. unfold add_link at 1. run. rewrite IH. simpl.
    rewrite <- app_assoc. reflexivity.
Qed.

Lemma set_publications_run v it :
  ScientificItemExt.set_publications v it
  = (Returned tt,
     {| properties :=
          <[PUBLICATIONS := VList (map Publication.to_dict v)]> (properties it);
        links := links it ++ map Publication.get_link v;
        stac_extensions := stac_extensions it |}).
Proof.
  unfold ScientificItemExt.set_publications, setitem. run.
  rewrite add_links_run. reflexivity.
Qed.

Lemma apply_run d ci ps it :
  ScientificItemExt.apply d ci ps it
  = (Returned tt,
     {| properties :=
          (if pubs_given ps
           then <[PUBLICATIONS := VList (map Publication.to_dict (default [] ps))]>
           else id)
            ((if str_given ci then <[CITATION := VStr (default "" ci)]> else id)
               ((if str_given d then <[DOI := VStr (default "" d)]> else id)
                  (properties it)));
        links :=
          links it
          ++ (if str_given d
              then [{| link.rel := CITE_AS;
                       link.target := doi_to_url (default "" d) |}]
              else [])
          ++ (if pubs_given ps
              then map Publication.get_link (default [] ps) else []);
        stac_extensions := stac_extensions it |}).
Proof.
  unfold ScientificItemExt.apply.
  destruct it as [props ls].
  destruct d as [v1|]; [destruct (str_truthy v1) eqn:T1 |];
    destruct ci as [v2|]; try destruct (str_truthy v2) eqn:T2;
    destruct ps as [v3|]; try destruct v3 as [|p3 v3];
    run; rewrite ?T1, ?T2; simpl;
    rewrite ?set_doi_run; simpl; rewrite ?set_publications_run; simpl;
    rewrite ?app_nil_r, <- ?app_assoc; reflexivity.
Qed.

Lemma remove_publication_absent publication it :
  properties it !! PUBLICATIONS = None ->
  ScientificItemExt.remove_publication publication it = (Returned tt, it).
Proof.
  intros H. unfold ScientificItemExt.remove_publication. run. rewrite H.
  reflexivity.
Qed.

Lemma remove_links_run (pubs : list Publication.t) : forall it,
  for_each pubs (fun one_pub => set_links (fun ls => remove_link ls one_pub)) it
  = (Returned tt,
     {| properties := properties it;
        links := fold_left remove_link pubs (links it);
        stac_extensions := stac_extensions it |}).
Proof.
  induction pubs as [|pub pubs IH]; intros it; simpl.
  - destruct it; reflexivity.
  - run. unfold set_links at 1. run. rewrite IH. reflexivity.
Qed.

Lemma remove_publication_all it stored :
  properties it !! PUBLICATIONS = Some stored ->
  ScientificItemExt.remove_publication None it
  = if implements SCIENTIFIC it
    then match publications_of (Some stored) with
         | Returned pubs =>
             (Returned tt,
              {| properties := delete PUBLICATIONS (properties it);
                 links := fold_left remove_link pubs (links it);
                 stac_extensions := stac_extensions it |})
         | Raised e => (Raised e, it)
         end
    else (Raised ExtensionError, it).
Proof.
  intros H. unfold ScientificItemExt.remove_publication,
    ScientificItemExt.publications, ext. run. rewrite H.
  destruct (implements SCIENTIFIC it); [| reflexivity]. run. rewrite H.
  destruct (publications_of (Some stored)) as [pubs|e]; [| reflexivity].
  rewrite remove_links_run. unfold delitem. simpl. rewrite H. reflexivity.
Qed.

Lemma remove_publication_one it pub l :
  properties it !! PUBLICATIONS = Some (VList l) ->
  ScientificItemExt.remove_publication (Some pub) it
  = match list_remove (Publication.to_dict pub) l with
    | None =>
        (Raised ValueError,
         {| properties := properties it;
            links := remove_link (links it) pub;
            stac_extensions := stac_extensions it |})
    | Some [] =>
        (Returned tt,
         {| properties := delete PUBLICATIONS (properties it);
            links := remove_link (links it) pub;
            stac_extensions := stac_extensions it |})
    | Some (d :: l') =>
        (Returned tt,
         {| properties := <[PUBLICATIONS := VList (d :: l')]> (properties it);
            links := remove_link (links it) pub;
            stac_extensions := stac_extensions it |})
    end.
Proof.
  intros H. unfold ScientificItemExt.remove_publication. run. rewrite H.
  unfold set_links, getitem, setitem, delitem. run. rewrite H. simpl.
  destruct (list_remove (Publication.to_dict pub) l) as [[|d l']|]; simpl.
  - rewrite lookup_insert_eq. simpl. rewrite lookup_insert_eq, delete_insert_eq.
    reflexivity.
  - rewrite lookup_insert_eq. reflexivity.
  - reflexivity.
Qed.

Lemma remove_publication_str it pub s :
  properties it !! PUBLICATIONS = Some (VStr s) ->
  ScientificItemExt.remove_publication (Some pub) it
  = (Raised AttributeError,
     {| properties := properties it; links := remove_link (links it) pub;
        stac_extensions := stac_extensions it |}).
Proof.
  intros H. unfold ScientificItemExt.remove_publication. run. rewrite H.
  unfold set_links, getitem. run. rewrite H. reflexivity.
Qed.

(** ** I2 under each call *)

Lemma I2_insert_other k v props :
  k <> PUBLICATIONS -> I2 props -> I2 (<[k := v]> props).
Proof. intros Hk H w. rewrite lookup_insert_ne; auto. Qed.

Lemma I2_delete props : I2 (delete PUBLICATIONS props).
Proof. intros w. rewrite lookup_delete_eq. discriminate. Qed.

Lemma I2_insert_publications v props :
  v <> [] ->
  I2 (<[PUBLICATIONS := VList (map Publication.to_dict v)]> props).
Proof.
  intros Hv w. rewrite lookup_insert_eq. intros [= <-].
  eexists. split; [reflexivity |]. split.
  - destruct v; [congruence | discriminate].
  - apply Forall_forall. intros d Hd. apply list_elem_of_In, in_map_iff in Hd
      as (p & <- & _). exists p. reflexivity.
Qed.

Lemma answering_snd {S A} (f : A -> answer) (m : M S A) h :
  snd (answering f m h) = snd (m h).
Proof. unfold answering. run. destruct (m h) as [[a|e] h']; reflexivity. Qed.

Lemma I2_run c it :
  keeps_I2 c -> I2 (properties it) -> I2 (properties (snd (run_item c it))).
Proof.
  destruct keys_distinct as (K1 & K2 & K3).
  intros Hc H. destruct c as [d ci ps| |v| |v| |v|p]; unfold run_item;
    rewrite answering_snd.
  - rewrite apply_run. simpl.
    assert (H1 : I2 ((if str_given d then <[DOI:=VStr (default "" d)]> else id)
                       (properties it)))
      by (destruct (str_given d); [apply I2_insert_other | ]; auto).
    assert (H2 : I2 ((if str_given ci then <[CITATION:=VStr (default "" ci)]> else id)
                    ((if str_given d then <[DOI:=VStr (default "" d)]> else id)
                       (properties it))))
      by (destruct (str_given ci); [apply I2_insert_other | ]; auto).
    destruct ps as [[|p ps]|]; simpl; auto.
    apply (I2_insert_publications (p :: ps)). discriminate.
  - exact H.
  - rewrite set_doi_run. simpl. apply I2_insert_other; auto.
  - exact H.
  - apply I2_insert_other; auto.
  - unfold ScientificItemExt.publications. run. exact H.
  - rewrite set_publications_run. simpl. apply I2_insert_publications.
    destruct v; [destruct Hc | discriminate].
  - destruct (properties it !! PUBLICATIONS) as [stored|] eqn:E.
    + destruct p as [pub|].
      * destruct (H _ E) as (l & -> & Hne & Hl).
        rewrite (remove_publication_one it pub l E).
        pose proof (list_remove_spec (Publication.to_dict pub) l) as Hr.
        destruct (list_remove (Publication.to_dict pub) l) as [[|d l']|]; simpl.
        -- apply I2_delete.
        -- intros w. rewrite lookup_insert_eq. intros [= <-].
           exists (d :: l'). repeat split; [discriminate |].
           destruct Hr as (b & af & -> & _ & Hd). rewrite Hd.
           apply Forall_app in Hl as [Hb Ha]. apply Forall_app. split; auto.
           inversion Ha; auto.
        -- exact H.
      * rewrite (remove_publication_all it stored E).
        destruct (implements SCIENTIFIC it); [| exact H].
        destruct (publications_of (Some stored)); simpl; [apply I2_delete | exact H].
    + rewrite remove_publication_absent; auto.
Qed.

Lemma I2_session cs : forall it,
  Forall keeps_I2 cs -> I2 (properties it) ->
  I2 (properties (snd (session run_item cs it))).
Proof.
  induction cs as [|c cs IH]; intros it Hcs H; simpl; auto.
  inversion Hcs as [|? ? Hc Hcs']; subst.
  pose proof (I2_run c it Hc H) as H'.
  destruct (run_item c it) as [o it']. simpl in H'.
  specialize (IH it' Hcs' H').
  destruct (session run_item cs it') as [os it'']. exact IH.
Qed.

(* ===================================================================== *)
(** * Properties of the link synchronizer and of [remove_publication] *)
(* ===================================================================== *)

(** C3: [remove_link] never raises and does one of two things.  Either the
    list splits as [before ++ a_link :: after], where [a_link] is the first
    link with relation [cite-as] and target [doi_to_url(pub.doi)], and the
    result is [before ++ after] (everything after the first match stays,
    later duplicates included); or no link has both, and the list comes back
    as it was. *)
Theorem remove_link_first_match links pub :
  (exists before a_link after,
      links = before ++ a_link :: after
      /\ cites pub a_link
      /\ Forall (fun l => ~ cites pub l) before
      /\ remove_link links pub = before ++ after)
  \/ (Forall (fun l => ~ cites pub l) links /\ remove_link links pub = links).
Proof. apply remove_link_cases. Qed.

(** C2: when the stored [sci:publications] list has no element equal to
    [pub.to_dict()], [remove_publication(pub)] raises [ValueError] to the
    caller, the property bag is as before, and the links are as
    [remove_link] left them: unchanged, or short of one link that cites
    [pub].  Nothing is rolled back. *)
Theorem remove_publication_not_found it pub l :
  properties it !! PUBLICATIONS = Some (VList l) ->
  Publication.to_dict pub ∉ l ->
  exists links',
    ScientificItemExt.remove_publication (Some pub) it
    = (Raised ValueError, {| properties := properties it; links := links';
                             stac_extensions := stac_extensions it |})
    /\ links' = remove_link (links it) pub
    /\ (links' = links it
        \/ exists before a_link after,
             links it = before ++ a_link :: after
             /\ cites pub a_link
             /\ links' = before ++ after).
Proof.
  intros Hst Hno. exists (remove_link (links it) pub).
  rewrite (remove_publication_one it pub l Hst), (list_remove_absent _ _ Hno).
  repeat split.
  destruct (remove_link_cases (links it) pub)
    as [(b & x & af & E & Hx & _ & ->) | [_ ->]]; [right | left; reflexivity].
  exists b, x, af. auto.
Qed.

(** [remove_publication(pub_z)] on a host that holds [pub_a] and [pub_b]. *)
Lemma remove_publication_not_found_witness :
  exists links',
    ScientificItemExt.remove_publication (Some pub_z) item_ab
    = (Raised ValueError,
       {| item.properties := item.properties item_ab; item.links := links';
          item.stac_extensions := item.stac_extensions item_ab |})
    /\ links' = remove_link (item.links item_ab) pub_z
    /\ (links' = item.links item_ab
        \/ exists before a_link after,
             item.links item_ab = before ++ a_link :: after
             /\ cites pub_z a_link
             /\ links' = before ++ after).
Proof.
  apply (remove_publication_not_found item_ab pub_z
           [Publication.to_dict pub_a; Publication.to_dict pub_b]).
  - reflexivity.
  - intros H. apply list_elem_of_In in H. simpl in H.
    destruct H as [H|[H|[]]];
      apply (f_equal (fun d => d !! "citation")) in H; vm_compute in H;
      discriminate.
Defined.

(** C10: when [pub.to_dict()] occurs in the stored list at a first position
    and again later, [remove_publication(pub)] returns normally, the stored
    list loses that first occurrence only (a later one is still there), and
    the links lose the first link that cites [pub] and no other. *)
Theorem remove_publication_first_duplicate
    it pub before after lbefore a_link lafter :
  item.properties it !! PUBLICATIONS
  = Some (VList (before ++ Publication.to_dict pub :: after)) ->
  Publication.to_dict pub ∉ before ->
  Publication.to_dict pub ∈ after ->
  item.links it = lbefore ++ a_link :: lafter ->
  cites pub a_link ->
  Forall (fun l => ~ cites pub l) lbefore ->
  ScientificItemExt.remove_publication (Some pub) it
  = (Returned tt,
     {| item.properties :=
          <[PUBLICATIONS := VList (before ++ after)]> (item.properties it);
        item.links := lbefore ++ lafter;
        item.stac_extensions := item.stac_extensions it |})
  /\ Publication.to_dict pub ∈ before ++ after.
Proof.
  intros Hst Hb Ha Hl Hc Hlb. split.
  - rewrite (remove_publication_one it pub _ Hst), (list_remove_first _ _ _ Hb).
    rewrite (remove_link_first _ pub _ _ _ Hl Hc Hlb).
    destruct (before ++ after) as [|d l'] eqn:E; [| reflexivity].
    apply app_eq_nil in E as [_ ->]. apply elem_of_nil in Ha. destruct Ha.
  - apply elem_of_app. auto.
Qed.

(** [remove_publication(pub_a)] on a host where [pub_a] was stored twice. *)
Lemma remove_publication_first_duplicate_witness :
  ScientificItemExt.remove_publication (Some pub_a) item_aba
  = (Returned tt,
     {| item.properties :=
          <[PUBLICATIONS := VList ([] ++ [Publication.to_dict pub_b;
                                          Publication.to_dict pub_a])]>
            (item.properties item_aba);
        item.links := [] ++ [Publication.get_link pub_b;
                             Publication.get_link pub_a];
        item.stac_extensions := item.stac_extensions item_aba |})
  /\ Publication.to_dict pub_a
     ∈ [] ++ [Publication.to_dict pub_b; Publication.to_dict pub_a].
Proof.
  apply (remove_publication_first_duplicate item_aba pub_a [] _ []
           (Publication.get_link pub_a) _).
  - reflexivity.
  - apply not_elem_of_nil.
  - apply elem_of_cons. right. apply elem_of_cons. left. reflexivity.
  - reflexivity.
  - split; reflexivity.
  - constructor.
Defined.

(* ===================================================================== *)
(** * Invariant I2, [doi] assignment, DOI utilities *)
(* ===================================================================== *)

Lemma I2_fresh : I2 (item.properties item.blank).
Proof. intros v H. simpl in H. rewrite lookup_empty in H. discriminate. Qed.

Lemma session_on_collection cs c :
  session run_collection cs c
  = (fst (session run_item cs (as_item c)),
     as_collection (snd (session run_item cs (as_item c)))).
Proof. rewrite <- sim_session, as_collection_as_item. reflexivity. Qed.

(** On a new item, which satisfies I2, assigning the empty list to
    [publications] leaves an empty list stored under [sci:publications]. *)
Lemma set_empty_publications_breaks_I2 :
  I2 (item.properties item.blank)
  /\ ~ I2 (item.properties
             (snd (session run_item [SetPublications []] item.blank))).
Proof.
  split; [apply I2_fresh |]. intros H.
  destruct (H (VList [])) as (l & E & Hne & _); [reflexivity |].
  injection E as <-. congruence.
Qed.

(** C1 (amended): on a host that satisfies I2, any sequence of adapter
    calls in which [publications] is never assigned the empty list leaves
    I2 true, for both adapters, whether the calls return or raise; in
    particular [remove_publication] and [apply] never leave an empty list
    stored.  Assigning the empty list to [publications] stores it. *)
Theorem I2_kept_by_sessions :
  (forall cs it,
      Forall keeps_I2 cs ->
      I2 (item.properties it) ->
      I2 (item.properties (snd (session run_item cs it))))
  /\ (forall cs c,
         Forall keeps_I2 cs ->
         I2 (collection.extra_fields c) ->
         I2 (collection.extra_fields (snd (session run_collection cs c))))
  /\ (forall it,
         item.properties (snd (ScientificItemExt.set_publications [] it))
           !! PUBLICATIONS
         = Some (VList [])).
Proof.
  split; [| split].
  - intros cs it Hcs H. apply I2_session; auto.
  - intros cs c Hcs H. rewrite session_on_collection. simpl.
    apply (I2_session cs (as_item c)); auto.
  - intros it. rewrite set_publications_run. simpl. apply lookup_insert_eq.
Qed.

(** I2 after [sample_session] on a new item. *)
Lemma I2_kept_by_sessions_witness :
  I2 (item.properties (snd (session run_item sample_session item.blank))).
Proof.
  apply (proj1 I2_kept_by_sessions sample_session).
  - repeat constructor.
  - apply I2_fresh.
Defined.

(** C4: for both adapters, assigning [v] to [doi] returns normally, writes
    [v] under [sci:doi] and appends the one link [cite-as] to
    [doi_to_url(v)] at the end of the links, whatever they held before: the
    number of links grows by one, and two assignments of the same DOI on a
    new host leave two equal links. *)
Theorem set_doi_appends_one_link v :
  (forall it,
      ScientificItemExt.set_doi v it
      = (Returned tt,
         {| item.properties := <[DOI := VStr v]> (item.properties it);
            item.links := item.links it ++ [the_link v];
            item.stac_extensions := item.stac_extensions it |})
      /\ length (item.links (snd (ScientificItemExt.set_doi v it)))
         = S (length (item.links it)))
  /\ (forall c,
        ScientificCollectionExt.set_doi v c
        = (Returned tt,
           {| collection.extra_fields :=
                <[DOI := VStr v]> (collection.extra_fields c);
              collection.links := collection.links c ++ [the_link v];
              collection.stac_extensions := collection.stac_extensions c |})
        /\ length (collection.links (snd (ScientificCollectionExt.set_doi v c)))
           = S (length (collection.links c)))
  /\ item.links
       (snd ((ScientificItemExt.set_doi v ;; ScientificItemExt.set_doi v)
               item.blank))
     = [the_link v; the_link v]
  /\ collection.links
       (snd ((ScientificCollectionExt.set_doi v ;;
              ScientificCollectionExt.set_doi v) collection.blank))
     = [the_link v; the_link v].
Proof.
  assert (Hc : forall c,
             ScientificCollectionExt.set_doi v c
             = (Returned tt,
                {| collection.extra_fields :=
                     <[DOI := VStr v]> (collection.extra_fields c);
                   collection.links := collection.links c ++ [the_link v];
                   collection.stac_extensions := collection.stac_extensions c |})).
  { intros c. rewrite (sim_on_collection _ _ c (sim_set_doi v)), set_doi_run.
    reflexivity. }
  split; [| split; [| split]].
  - intros it. split; [apply set_doi_run |].
    rewrite set_doi_run. simpl. rewrite length_app. simpl. lia.
  - intros c. split; [apply Hc |].
    rewrite Hc. simpl. rewrite length_app. simpl. lia.
  - run. rewrite !set_doi_run. reflexivity.
  - run. rewrite !Hc. reflexivity.
Qed.

(** [10.1000/] followed by a line feed has the shape of the claim as it is
    written (a [/] and then one more character), and is not valid. *)
Lemma newline_after_slash_rejected :
  doi_shape any_character doi_with_newline
  /\ is_doi_valid doi_with_newline = false.
Proof.
  split; [| reflexivity].
  exists (chars "1000"), [], Re.newline, [].
  split; [reflexivity |]. split; [reflexivity |]. split; [constructor |].
  split; reflexivity.
Qed.

(** C5 (amended): [is_doi_valid(doi)] is true exactly when [doi] starts
    with [10.], four digits, any number of groups of a dot and one or more
    digits, a [/], and one character other than a line feed; anything may
    follow.  It is total, and the three examples of the specification come
    out as stated. *)
Theorem is_doi_valid_matches_pattern :
  (forall doi, is_doi_valid doi = true <-> doi_shape not_newline doi)
  /\ is_doi_valid "10.1000/182" = true
  /\ is_doi_valid "not-a-doi" = false
  /\ is_doi_valid "10.1/182" = false.
Proof.
  split; [apply is_doi_valid_shape |].
  split; [| split]; reflexivity.
Qed.

Lemma hex_value_hex_digit n :
  n < 16 -> hex_value (parse.hex_digit n) = Some n.
Proof.
  intros Hn. do 16 (destruct n as [|n]; [reflexivity |]). lia.
Qed.

Lemma quote_step c rest :
  parse.quote (String c rest)
  = if kept c
    then String c (parse.quote rest)
    else String "%"
           (String (parse.hex_digit (Ascii.nat_of_ascii c / 16))
              (String (parse.hex_digit (Ascii.nat_of_ascii c mod 16))
                 (parse.quote rest))).
Proof.
  unfold parse.quote at 1. unfold kept. simpl.
  destruct (parse.always_safe c || Ascii.eqb c "/"); reflexivity.
Qed.

Lemma path_quoted_quote s : path_quoted s (parse.quote s).
Proof.
  induction s as [|c s IH]; [constructor |].
  rewrite quote_step. destruct (kept c) eqn:K.
  - apply pq_left; [| exact IH]. intros ->. discriminate.
  - pose proof (nat_ascii_bounded c) as B.
    apply pq_escaped; [| | | exact IH].
    + intros ->. discriminate.
    + apply hex_value_hex_digit. apply Nat.Div0.div_lt_upper_bound. lia.
    + apply hex_value_hex_digit. apply Nat.mod_upper_bound. lia.
Qed.

Lemma unquote_path_quoted s t : path_quoted s t -> unquote t = Some s.
Proof.
  induction 1 as [|c s t Hc _ IH|c hi lo s t Hc Hhi Hlo _ IH].
  - reflexivity.
  - cbn [unquote]. destruct (Ascii.eqb_spec c "%"); [contradiction |].
    rewrite IH. reflexivity.
  - cbn [unquote]. rewrite Ascii.eqb_refl, Hhi, Hlo, IH.
    rewrite <- Nat.div_mod_eq, ascii_nat_embedding. reflexivity.
Qed.

Lemma quote_single_kept c :
  parse.quote (String c EmptyString) = String c EmptyString <-> kept c = true.
Proof.
  rewrite quote_step. destruct (kept c) eqn:K.
  - split; reflexivity.
  - split; discriminate.
Qed.

(** C6: [doi_to_url(doi)] is [https://doi.org/] followed by a
    percent-encoded form of [doi] in which [/] is left unescaped: byte
    after byte, the byte is left as it is or replaced by [%] and the two
    upper-case hexadecimal digits of its value, [/] is never replaced,
    and decoding gives [doi] back.  The quoting of [a/b] is that of [a],
    a [/], that of [b].  The bytes left as they are are the letters, the
    digits, [_.-~] and [/].  The DOI handbook's DOI gives
    [https://doi.org/10.1000/182], and a DOI with a space, a [%], angle
    brackets and a two-byte letter has each of them escaped. *)
Theorem doi_to_url_quotes_path :
  (forall doi,
      exists quoted,
        doi_to_url doi = "https://doi.org/" +:+ quoted
        /\ path_quoted doi quoted
        /\ unquote quoted = Some doi)
  /\ (forall a b,
         doi_to_url (a +:+ "/" +:+ b)
         = doi_to_url a +:+ "/" +:+ parse.quote b)
  /\ (forall c,
         doi_to_url (String c EmptyString)
         = "https://doi.org/" +:+ String c EmptyString
         <-> kept c = true)
  /\ doi_to_url "10.1000/182" = "https://doi.org/10.1000/182"
  /\ doi_to_url awkward_doi
     = "https://doi.org/10.1000/a%20b%25%3C%C3%A9%3E".
Proof.
  split; [| split; [| split; [| split]]].
  - intros doi. exists (parse.quote doi).
    split; [reflexivity |]. split; [apply path_quoted_quote |].
    apply unquote_path_quoted, path_quoted_quote.
  - intros a b. unfold doi_to_url, parse.quote.
    rewrite !quote_with_app, !string_app_assoc. reflexivity.
  - intros c. unfold doi_to_url, DOI_URL_BASE. rewrite <- quote_single_kept.
    split; [apply (inj (String.append _)) | intros ->; reflexivity].
  - reflexivity.
  - reflexivity.
Qed.

(* ===================================================================== *)
(** * Publication *)
(* ===================================================================== *)

Lemma from_dict_to_dict p :
  Publication.from_dict (Publication.to_dict p) = Returned p.
Proof. destruct p as [d c]. reflexivity. Qed.

Lemma Publication_eq_refl p : Publication.eq p p = true.
Proof. unfold Publication.eq. rewrite !String.eqb_refl. reflexivity. Qed.

Lemma heap_to_dict_run st self p :
  Heap.is_publication st self p ->
  let literal := fresh (dom st) in
  let st1 := <[literal := Publication.to_dict p]> st in
  let copy := fresh (dom st1) in
  Heap.to_dict self st
  = (Returned copy, <[copy := Publication.to_dict p]> st1).
Proof.
  intros (attrs & Hs & Hd & Hc). simpl.
  unfold Heap.to_dict, Heap.getattr, Heap.alloc, Heap.deepcopy. run.
  rewrite Hs, Hd. simpl. rewrite Hs, Hc. simpl.
  rewrite lookup_insert_eq. reflexivity.
Qed.

(** C7: [from_dict(to_dict(Publication(doi, citation)))] returns a
    publication equal under [__eq__] to the original, with both fields
    equal.  On the store of objects, [to_dict] returns a dictionary at an
    address that was not in use, different from the instance, holding the
    serialized fields; no object that existed changes, and whatever is
    done to the returned dictionary leaves the instance's attributes as
    they were. *)
Theorem publication_round_trip_and_fresh_copy :
  (forall doi citation,
      exists q,
        Publication.from_dict (Publication.to_dict (Publication.new doi citation))
        = Returned q
        /\ Publication.eq q (Publication.new doi citation) = true
        /\ Publication.doi q = doi /\ Publication.citation q = citation)
  /\ (forall (st : gmap nat (gmap string string)) self p,
         Heap.is_publication st self p ->
         exists copy st',
           Heap.to_dict self st = (Returned copy, st')
           /\ st !! copy = None
           /\ copy <> self
           /\ st' !! copy = Some (Publication.to_dict p)
           /\ (forall a, is_Some (st !! a) -> st' !! a = st !! a)
           /\ (forall f,
                  snd (Heap.mutate copy f st') !! self = st !! self
                  /\ Heap.is_publication (snd (Heap.mutate copy f st')) self p)).
Proof.
  split.
  - intros doi citation. exists (Publication.new doi citation).
    rewrite from_dict_to_dict, Publication_eq_refl. auto.
  - intros st self p Hp. pose proof (heap_to_dict_run st self p Hp) as Hrun.
    simpl in Hrun.
    set (literal := fresh (dom st)) in *.
    set (st1 := <[literal := Publication.to_dict p]> st) in *.
    set (copy := fresh (dom st1)) in *.
    assert (Hl : st !! literal = None).
    { apply not_elem_of_dom. apply is_fresh. }
    assert (Hc1 : st1 !! copy = None).
    { apply not_elem_of_dom. apply is_fresh. }
    assert (Hcl : copy <> literal).
    { intros E. rewrite E in Hc1. unfold st1 in Hc1.
      rewrite lookup_insert_eq in Hc1. discriminate. }
    assert (Hc : st !! copy = None).
    { unfold st1 in Hc1. rewrite lookup_insert_ne in Hc1; auto. }
    assert (Hself : copy <> self).
    { intros E. destruct Hp as (attrs & Hs & _). congruence. }
    assert (Hkeep : forall a, is_Some (st !! a) ->
                      <[copy := Publication.to_dict p]> st1 !! a = st !! a).
    { intros a [x Hx]. unfold st1.
      rewrite !lookup_insert_ne; congruence. }
    exists copy, (<[copy := Publication.to_dict p]> st1).
    split; [exact Hrun |]. split; [exact Hc |]. split; [exact Hself |].
    split; [apply lookup_insert_eq |]. split; [exact Hkeep |].
    intros f.
    assert (E : snd (Heap.mutate copy f (<[copy := Publication.to_dict p]> st1))
                !! self = st !! self).
    { unfold Heap.mutate. run. rewrite lookup_alter_ne; auto.
      apply Hkeep. destruct Hp as (attrs & Hs & _). eauto. }
    split; [exact E |]. destruct Hp as (attrs & Hs & Hd & Hci).
    exists attrs. rewrite E. auto.
Qed.

(** [to_dict] on the instance at address 0 of [sample_store]. *)
Lemma publication_round_trip_and_fresh_copy_witness :
  exists copy st',
    Heap.to_dict 0 sample_store = (Returned copy, st')
    /\ sample_store !! copy = None
    /\ copy <> 0
    /\ st' !! copy = Some (Publication.to_dict pub_a)
    /\ (forall a, is_Some (sample_store !! a) -> st' !! a = sample_store !! a)
    /\ (forall f,
           snd (Heap.mutate copy f st') !! 0 = sample_store !! 0
           /\ Heap.is_publication (snd (Heap.mutate copy f st')) 0 pub_a).
Proof.
  apply (proj2 publication_round_trip_and_fresh_copy sample_store 0 pub_a).
  exists (Publication.to_dict pub_a).
  split; [vm_compute; reflexivity |]. split; reflexivity.
Defined.

(* ===================================================================== *)
(** * [apply] and the two adapters *)
(* ===================================================================== *)

Lemma apply_item_frame d ci ps it :
  let '(o, it') := ScientificItemExt.apply d ci ps it in
  o = Returned tt
  /\ item.properties it' !! DOI
     = apply_field (str_given d) (VStr (default "" d))
         (item.properties it !! DOI)
  /\ item.properties it' !! CITATION
     = apply_field (str_given ci) (VStr (default "" ci))
         (item.properties it !! CITATION)
  /\ item.properties it' !! PUBLICATIONS
     = apply_field (pubs_given ps)
         (VList (map Publication.to_dict (default [] ps)))
         (item.properties it !! PUBLICATIONS)
  /\ item.links it' = item.links it ++ apply_links d ps.
Proof.
  destruct keys_distinct as (K1 & K2 & K3).
  rewrite apply_run. unfold apply_field, apply_links. simpl.
  split; [reflexivity |].
  destruct (str_given d), (str_given ci), (pubs_given ps); simpl;
    rewrite ?lookup_insert_eq;
    repeat (rewrite lookup_insert_ne by congruence; rewrite ?lookup_insert_eq);
    auto.
Qed.

(** C8: for both adapters, [apply] returns normally and, for an argument
    that is [None], the empty string or the empty list, leaves the value
    under the corresponding key as it was and appends no link for it; an
    argument that is given is written and its links appended.  With no
    argument given the host is unchanged.  No case removes a key. *)
Theorem apply_skips_falsy_arguments d ci ps :
  (forall it,
      let '(o, it') := ScientificItemExt.apply d ci ps it in
      o = Returned tt
      /\ item.properties it' !! DOI
         = apply_field (str_given d) (VStr (default "" d))
             (item.properties it !! DOI)
      /\ item.properties it' !! CITATION
         = apply_field (str_given ci) (VStr (default "" ci))
             (item.properties it !! CITATION)
      /\ item.properties it' !! PUBLICATIONS
         = apply_field (pubs_given ps)
             (VList (map Publication.to_dict (default [] ps)))
             (item.properties it !! PUBLICATIONS)
      /\ item.links it' = item.links it ++ apply_links d ps)
  /\ (forall c,
        let '(o, c') := ScientificCollectionExt.apply d ci ps c in
        o = Returned tt
        /\ collection.extra_fields c' !! DOI
           = apply_field (str_given d) (VStr (default "" d))
               (collection.extra_fields c !! DOI)
        /\ collection.extra_fields c' !! CITATION
           = apply_field (str_given ci) (VStr (default "" ci))
               (collection.extra_fields c !! CITATION)
        /\ collection.extra_fields c' !! PUBLICATIONS
           = apply_field (pubs_given ps)
               (VList (map Publication.to_dict (default [] ps)))
               (collection.extra_fields c !! PUBLICATIONS)
        /\ collection.links c' = collection.links c ++ apply_links d ps)
  /\ (str_given d = false -> str_given ci = false -> pubs_given ps = false ->
      (forall it, ScientificItemExt.apply d ci ps it = (Returned tt, it))
      /\ (forall c, ScientificCollectionExt.apply d ci ps c = (Returned tt, c))).
Proof.
  split; [| split].
  - intros it. apply apply_item_frame.
  - intros c. rewrite (sim_on_collection _ _ c (sim_apply d ci ps)).
    pose proof (apply_item_frame d ci ps (as_item c)) as H.
    destruct (ScientificItemExt.apply d ci ps (as_item c)) as [o it'].
    exact H.
  - intros Hd Hci Hps.
    assert (Hit : forall it, ScientificItemExt.apply d ci ps it = (Returned tt, it)).
    { intros it. rewrite apply_run, Hd, Hci, Hps. simpl.
      rewrite app_nil_r. destruct it; reflexivity. }
    split; [exact Hit |]. intros c.
    rewrite (sim_on_collection _ _ c (sim_apply d ci ps)), Hit. simpl.
    apply f_equal, as_collection_as_item.
Qed.

(** [apply("", None, [])] changes nothing. *)
Lemma apply_skips_falsy_arguments_witness :
  (forall it,
      ScientificItemExt.apply (Some "") None (Some []) it = (Returned tt, it))
  /\ (forall c,
         ScientificCollectionExt.apply (Some "") None (Some []) c
         = (Returned tt, c)).
Proof.
  apply (proj2 (proj2 (apply_skips_falsy_arguments (Some "") None (Some []))));
    reflexivity.
Defined.

(** C9: an item and a collection with the same fields and the same links
    stay so under any sequence of calls ([apply], the three getters and
    setters, [remove_publication]), and every call returns the same value
    or raises the same exception on both; this holds starting from either
    kind of host. *)
Theorem adapters_equivalent cs :
  (forall it,
      session run_collection cs (as_collection it)
      = (fst (session run_item cs it),
         as_collection (snd (session run_item cs it))))
  /\ (forall c,
         session run_item cs (as_item c)
         = (fst (session run_collection cs c),
            as_item (snd (session run_collection cs c)))).
Proof.
  split.
  - intros it. apply sim_session.
  - intros c. rewrite session_on_collection. simpl.
    rewrite as_item_as_collection.
    destruct (session run_item cs (as_item c)); reflexivity.
Qed.

(* ===================================================================== *)
(** * The testable properties of the specification, evaluated *)
(* ===================================================================== *)

Example is_doi_valid_five_digits : is_doi_valid "10.12345/x" = false.
Proof. reflexivity. Qed.

Example is_doi_valid_group : is_doi_valid "10.1000.5/x" = true.
Proof. reflexivity. Qed.

Example is_doi_valid_empty_group : is_doi_valid "10.1000./x" = false.
Proof. reflexivity. Qed.

Example is_doi_valid_anchored : is_doi_valid "doi:10.1000/182" = false.
Proof. reflexivity. Qed.

Example is_doi_valid_empty_suffix : is_doi_valid "10.1000/" = false.
Proof. reflexivity. Qed.

Example doi_to_url_escapes :
  doi_to_url "10.1000/a b<c" = "https://doi.org/10.1000/a%20b%3Cc".
Proof. reflexivity. Qed.

Example from_dict_missing_citation :
  Publication.from_dict (<["doi" := "10.5555/1"]> ∅)
  = Raised (KeyError "citation").
Proof. reflexivity. Qed.

Example publications_set :
  item_ab
  = {| item.properties :=
         <[PUBLICATIONS := VList [Publication.to_dict pub_a;
                                  Publication.to_dict pub_b]]> ∅;
       item.links :=
         [{| link.rel := "cite-as"; link.target := "https://doi.org/10.5555/1" |};
          {| link.rel := "cite-as"; link.target := "https://doi.org/10.5555/2" |}];
       item.stac_extensions := None |}
  /\ ScientificItemExt.publications item_ab = (Returned [pub_a; pub_b], item_ab).
Proof. split; reflexivity. Qed.

Example targeted_removal :
  ScientificItemExt.remove_publication (Some pub_a) item_ab
  = (Returned tt,
     {| item.properties := <[PUBLICATIONS := VList [Publication.to_dict pub_b]]> ∅;
        item.links :=
          [{| link.rel := "cite-as";
              link.target := "https://doi.org/10.5555/2" |}];
        item.stac_extensions := None |}).
Proof. vm_compute. reflexivity. Qed.

Example clear_all_removal :
  ScientificItemExt.remove_publication None item_ab_enabled
  = (Returned tt, item_enabled).
Proof. vm_compute. reflexivity. Qed.

Example clear_all_not_enabled :
  ScientificItemExt.remove_publication None item_ab
  = (Raised ExtensionError, item_ab).
Proof. vm_compute. reflexivity. Qed.

Example last_removal_deletes_field :
  item.properties
    (snd (session run_item
            [RemovePublication (Some pub_a); RemovePublication (Some pub_b)]
            item_ab))
  = ∅.
Proof. vm_compute. reflexivity. Qed.

Example clear_all_without_field :
  ScientificItemExt.remove_publication None item.blank
  = (Returned tt, item.blank).
Proof. reflexivity. Qed.

Example collection_targeted_removal :
  session run_collection
    [SetPublications [pub_a; pub_b]; RemovePublication (Some pub_z);
     GetPublications]
    collection.blank
  = ([Returned ANone; Raised ValueError; Returned (APublications [pub_a; pub_b])],
     as_collection item_ab).
Proof. vm_compute. reflexivity. Qed.

(* ===================================================================== *)
(** * Publication: equality and deserialization *)
(* ===================================================================== *)

Lemma to_dict_doi p : Publication.to_dict p !! "doi" = Some (Publication.doi p).
Proof. reflexivity. Qed.

Lemma to_dict_citation p :
  Publication.to_dict p !! "citation" = Some (Publication.citation p).
Proof. reflexivity. Qed.

Lemma to_dict_inj p q : Publication.to_dict p = Publication.to_dict q -> p = q.
Proof.
  intros E. destruct p as [d1 c1], q as [d2 c2].
  pose proof (f_equal (fun m => m !! "doi") E) as Hd.
  pose proof (f_equal (fun m => m !! "citation") E) as Hc.
  simpl in Hd, Hc. rewrite !to_dict_doi in Hd. rewrite !to_dict_citation in Hc.
  simpl in Hd, Hc. congruence.
Qed.

(** X1: [__eq__] is true exactly when the two publications have the same
    fields, which is exactly when their [to_dict()] are equal dictionaries:
    the comparison [list.remove] makes in [remove_publication] agrees with
    [__eq__]. *)
Theorem publication_eq_is_field_equality p q :
  (Publication.eq p q = true <-> p = q)
  /\ (Publication.to_dict p = Publication.to_dict q <-> p = q)
  /\ (Publication.eq p q = bool_decide (Publication.to_dict p = Publication.to_dict q)).
Proof.
  assert (H1 : Publication.eq p q = true <-> p = q).
  { unfold Publication.eq. rewrite andb_true_iff, !String.eqb_eq.
    destruct p, q; simpl. split; [intros [-> ->]; reflexivity | intros [= -> ->]; auto]. }
  assert (H2 : Publication.to_dict p = Publication.to_dict q <-> p = q).
  { split; [apply to_dict_inj | intros ->; reflexivity]. }
  split; [exact H1 |]. split; [exact H2 |].
  destruct (Publication.eq p q) eqn:E.
  - symmetry. apply bool_decide_eq_true. apply H2, H1. reflexivity.
  - symmetry. apply bool_decide_eq_false. intros Hd. apply H2, H1 in Hd. congruence.
Qed.

Lemma from_dict_returns d p :
  Publication.from_dict d = Returned p <-> Publication.to_dict p ⊆ d.
Proof.
  unfold Publication.from_dict, Publication.getitem. split.
  - intros H. destruct (d !! "doi") as [a|] eqn:Ha; [| discriminate].
    destruct (d !! "citation") as [b|] eqn:Hb; [| discriminate].
    injection H as <-. unfold Publication.to_dict. simpl.
    apply insert_subseteq_l; [exact Ha |].
    apply insert_subseteq_l; [exact Hb |]. apply map_empty_subseteq.
  - intros H. rewrite map_subseteq_spec in H.
    rewrite (H "doi" _ (to_dict_doi p)), (H "citation" _ (to_dict_citation p)).
    destruct p; reflexivity.
Qed.

Lemma from_dict_raises d e :
  Publication.from_dict d = Raised e ->
  (e = KeyError "doi" /\ d !! "doi" = None)
  \/ (e = KeyError "citation" /\ d !! "citation" = None
      /\ is_Some (d !! "doi")).
Proof.
  unfold Publication.from_dict, Publication.getitem.
  destruct (d !! "doi") as [a|] eqn:Ha.
  - destruct (d !! "citation") as [b|] eqn:Hb; [discriminate |].
    intros [= <-]. right. eauto.
  - intros [= <-]. left. auto.
Qed.

(** X2: [from_dict(d)] returns [p] exactly when [d] holds [p]'s [doi] and
    [citation] (other keys are ignored); when it raises, the exception is
    the [KeyError] of the first missing key, [doi] before [citation]. *)
Theorem from_dict_reads_two_keys :
  (forall d p,
      Publication.from_dict d = Returned p <-> Publication.to_dict p ⊆ d)
  /\ (forall d e,
         Publication.from_dict d = Raised e ->
         (e = KeyError "doi" /\ d !! "doi" = None)
         \/ (e = KeyError "citation" /\ d !! "citation" = None
             /\ is_Some (d !! "doi"))).
Proof. split; [apply from_dict_returns | apply from_dict_raises]. Qed.

(** [from_dict] on a dictionary with a [doi] only. *)
Lemma from_dict_reads_two_keys_witness :
  (KeyError "citation" = KeyError "doi"
   /\ (<["doi" := "10.5555/1"]> ∅ : gmap string string) !! "doi" = None)
  \/ (KeyError "citation" = KeyError "citation"
      /\ (<["doi" := "10.5555/1"]> ∅ : gmap string string) !! "citation" = None
      /\ is_Some ((<["doi" := "10.5555/1"]> ∅ : gmap string string) !! "doi")).
Proof.
  apply (proj2 from_dict_reads_two_keys (<["doi" := "10.5555/1"]> ∅)
           (KeyError "citation")).
  reflexivity.
Defined.

(* ===================================================================== *)
(** * [doi_to_url] is injective *)
(* ===================================================================== *)

Lemma hex_digit_inj n m :
  n < 16 -> m < 16 -> parse.hex_digit n = parse.hex_digit m -> n = m.
Proof.
  intros Hn Hm.
  do 16 (destruct n as [|n]; [
    do 16 (destruct m as [|m]; [first [reflexivity | discriminate] |]); lia |]).
  lia.
Qed.

Lemma percent_inj c1 c2 : parse.percent c1 = parse.percent c2 -> c1 = c2.
Proof.
  unfold parse.percent. cbv zeta.
  pose proof (nat_ascii_bounded c1) as B1. pose proof (nat_ascii_bounded c2) as B2.
  pose proof (Nat.div_mod_eq (nat_of_ascii c1) 16) as D1.
  pose proof (Nat.div_mod_eq (nat_of_ascii c2) 16) as D2.
  pose proof (Nat.mod_upper_bound (nat_of_ascii c1) 16) as M1.
  pose proof (Nat.mod_upper_bound (nat_of_ascii c2) 16) as M2.
  remember (nat_of_ascii c1 / 16) as q1. remember (nat_of_ascii c1 mod 16) as r1.
  remember (nat_of_ascii c2 / 16) as q2. remember (nat_of_ascii c2 mod 16) as r2.
  intros E. injection E as H1 H2.
  apply hex_digit_inj in H1; [| lia ..]. apply hex_digit_inj in H2; [| lia ..].
  rewrite <- (ascii_nat_embedding c1), <- (ascii_nat_embedding c2). f_equal. lia.
Qed.

Lemma percent_app_inj c1 c2 x y :
  parse.percent c1 +:+ x = parse.percent c2 +:+ y -> c1 = c2 /\ x = y.
Proof.
  intros E.
  assert (E' : parse.percent c1 = parse.percent c2 /\ x = y).
  { unfold parse.percent in *. cbv zeta in *.
    remember (nat_of_ascii c1 / 16) as q1. remember (nat_of_ascii c1 mod 16) as r1.
    remember (nat_of_ascii c2 / 16) as q2. remember (nat_of_ascii c2 mod 16) as r2.
    injection E as E1 E2 E3. rewrite E1, E2. auto. }
  destruct E' as [Ep Ex]. split; [apply percent_inj; exact Ep | exact Ex].
Qed.

Lemma percent_head c x : exists y, parse.percent c +:+ x = String "%" y.
Proof. eexists. reflexivity. Qed.

Lemma quote_with_cons safe c rest :
  parse.quote_with safe (String c rest)
  = if parse.always_safe c || safe c
    then String c (parse.quote_with safe rest)
    else parse.percent c +:+ parse.quote_with safe rest.
Proof. reflexivity. Qed.

Lemma quote_with_inj safe :
  safe "%"%char = false ->
  forall a b, parse.quote_with safe a = parse.quote_with safe b -> a = b.
Proof.
  intros Hsafe.
  assert (Hkeep : forall c, parse.always_safe c || safe c = true -> c <> "%"%char).
  { intros c Hc ->. rewrite Hsafe in Hc. discriminate. }
  induction a as [|c1 a IH]; intros [|c2 b]; rewrite ?quote_with_cons.
  - reflexivity.
  - destruct (parse.always_safe c2 || safe c2); [discriminate |].
    destruct (percent_head c2 (parse.quote_with safe b)) as [y ->]. discriminate.
  - destruct (parse.always_safe c1 || safe c1); [discriminate |].
    destruct (percent_head c1 (parse.quote_with safe a)) as [y ->]. discriminate.
  - destruct (parse.always_safe c1 || safe c1) eqn:S1,
             (parse.always_safe c2 || safe c2) eqn:S2.
    + intros [= -> E]. f_equal. auto.
    + destruct (percent_head c2 (parse.quote_with safe b)) as [y ->].
      intros [= -> _]. destruct (Hkeep _ S1 eq_refl).
    + destruct (percent_head c1 (parse.quote_with safe a)) as [y ->].
      intros [= <- _]. destruct (Hkeep _ S2 eq_refl).
    + intros E. apply percent_app_inj in E as [-> E]. f_equal. auto.
Qed.

Lemma doi_to_url_inj a b : doi_to_url a = doi_to_url b -> a = b.
Proof.
  unfold doi_to_url, DOI_URL_BASE. intros E.
  apply (inj (String.append _)) in E.
  apply (quote_with_inj _ eq_refl) in E. exact E.
Qed.

(** X3: [doi_to_url] sends different DOIs to different URLs, so the link
    made by [get_link] for one publication is a link [remove_link] looks
    for on behalf of another exactly when the two have the same DOI. *)
Theorem doi_to_url_injective :
  (forall a b, doi_to_url a = doi_to_url b <-> a = b)
  /\ (forall p q,
         cites p (Publication.get_link q)
         <-> Publication.doi p = Publication.doi q).
Proof.
  split.
  - intros a b. split; [apply doi_to_url_inj | intros ->; reflexivity].
  - intros p q. unfold cites, Publication.get_link. simpl. split.
    + intros [_ E]. symmetry. apply doi_to_url_inj. exact E.
    + intros ->. auto.
Qed.

(* ===================================================================== *)
(** * What [remove_link] keeps *)
(* ===================================================================== *)

Lemma filter_none {A} (P : A -> Prop) `{forall x, Decision (P x)} (l : list A) :
  Forall (fun x => ~ P x) l -> filter P l = [].
Proof.
  induction 1 as [|x l Hx _ IH]; [reflexivity |].
  rewrite filter_cons_False by exact Hx. exact IH.
Qed.

Lemma remove_link_keeps links pub :
  remove_link links pub `sublist_of` links
  /\ length links <= S (length (remove_link links pub))
  /\ filter (fun l => ~ cites pub l) (remove_link links pub)
     = filter (fun l => ~ cites pub l) links
  /\ length (filter (cites pub) (remove_link links pub))
     = Nat.pred (length (filter (cites pub) links))
  /\ filter other_rel (remove_link links pub) = filter other_rel links.
Proof.
  destruct (remove_link_cases links pub)
    as [(b & x & af & -> & Hx & Hb & ->) | [Hall ->]].
  - split; [| split; [| split; [| split]]].
    + apply sublist_app; [reflexivity |]. apply sublist_cons. reflexivity.
    + rewrite !length_app. simpl. lia.
    + rewrite !filter_app, filter_cons_False; [reflexivity |]. tauto.
    + rewrite !filter_app, filter_cons_True by exact Hx.
      rewrite (filter_none (cites pub) b Hb). reflexivity.
    + rewrite !filter_app, filter_cons_False; [reflexivity |].
      unfold other_rel. destruct Hx as [Hr _]. tauto.
  - split; [reflexivity |]. split; [lia |]. split; [reflexivity |].
    split; [| reflexivity].
    rewrite (filter_none (cites pub) links Hall). reflexivity.
Qed.

(** X6: [remove_link] returns a sublist at most one link shorter; the
    links that do not cite [pub] are all kept, in order (in particular
    every link whose relation is not [cite-as]), and the number of links
    citing [pub] goes down by one, or stays at zero. *)
Theorem remove_link_takes_one_citing_link links pub :
  remove_link links pub `sublist_of` links
  /\ length links <= S (length (remove_link links pub))
  /\ filter (fun l => ~ cites pub l) (remove_link links pub)
     = filter (fun l => ~ cites pub l) links
  /\ length (filter (cites pub) (remove_link links pub))
     = Nat.pred (length (filter (cites pub) links))
  /\ filter other_rel (remove_link links pub) = filter other_rel links.
Proof. apply remove_link_keeps. Qed.

Lemma remove_link_after_add links pub rest :
  Forall (fun l => ~ cites pub l) links ->
  remove_link (links ++ Publication.get_link pub :: rest) pub = links ++ rest.
Proof.
  intros H. apply (remove_link_first _ pub links (Publication.get_link pub) rest);
    [reflexivity | split; reflexivity | exact H].
Qed.

Lemma remove_links_after_add (v : list Publication.t) : forall links,
  Forall (fun l => Forall (fun p => ~ cites p l) v) links ->
  fold_left remove_link v (links ++ map Publication.get_link v) = links.
Proof.
  induction v as [|p v IH]; intros links H; simpl.
  - apply app_nil_r.
  - rewrite remove_link_after_add.
    + apply IH. eapply Forall_impl; [exact H |]. intros l Hl.
      inversion Hl; auto.
    + eapply Forall_impl; [exact H |]. intros l Hl. inversion Hl; auto.
Qed.

Lemma comprehension_from_dict (v : list Publication.t) :
  comprehension Publication.from_dict (map Publication.to_dict v) = Returned v.
Proof.
  induction v as [|p v IH]; simpl; [reflexivity |].
  rewrite from_dict_to_dict, IH. reflexivity.
Qed.

Lemma fold_remove_link_sublist (pubs : list Publication.t) : forall links,
  fold_left remove_link pubs links `sublist_of` links
  /\ length links <= length (fold_left remove_link pubs links) + length pubs
  /\ filter other_rel (fold_left remove_link pubs links)
     = filter other_rel links.
Proof.
  induction pubs as [|p pubs IH]; intros links; simpl.
  - split; [reflexivity |]. split; [lia | reflexivity].
  - destruct (IH (remove_link links p)) as (H1 & H2 & H3).
    destruct (remove_link_keeps links p) as (S1 & S2 & _ & _ & S3).
    split; [etrans; eauto |]. split; [lia | congruence].
Qed.

(* ===================================================================== *)
(** * Assigning and clearing publications *)
(* ===================================================================== *)

Lemma sim_then (m1 : M item.Item unit) m2 (n1 : M item.Item unit) n2 :
  sim m1 m2 -> sim n1 n2 -> sim (m1 ;; n1) (m2 ;; n2).
Proof. intros H1 H2. apply sim_bind; auto. Qed.

Lemma set_then_clear_item v it :
  item.implements SCIENTIFIC it = true ->
  Forall (fun l => Forall (fun p => ~ cites p l) v) (item.links it) ->
  (ScientificItemExt.set_publications v ;;
   ScientificItemExt.remove_publication None) it
  = (Returned tt,
     {| item.properties := delete PUBLICATIONS (item.properties it);
        item.links := item.links it;
        item.stac_extensions := item.stac_extensions it |}).
Proof.
  intros He H. run. rewrite set_publications_run.
  rewrite (remove_publication_all _ (VList (map Publication.to_dict v)))
    by apply lookup_insert_eq.
  change (implements SCIENTIFIC _) with (item.implements SCIENTIFIC it).
  rewrite He. unfold publications_of. rewrite comprehension_from_dict. simpl.
  rewrite remove_links_after_add by exact H.
  rewrite delete_insert_eq. reflexivity.
Qed.

Lemma set_then_clear_item_disabled v it :
  item.implements SCIENTIFIC it = false ->
  (ScientificItemExt.set_publications v ;;
   ScientificItemExt.remove_publication None) it
  = (Raised ExtensionError, snd (ScientificItemExt.set_publications v it)).
Proof.
  intros He. run. rewrite set_publications_run.
  rewrite (remove_publication_all _ (VList (map Publication.to_dict v)))
    by apply lookup_insert_eq.
  change (implements SCIENTIFIC _) with (item.implements SCIENTIFIC it).
  rewrite He. reflexivity.
Qed.

(** X7: on a host on which the extension is enabled and none of whose
    links cites a publication of [v], assigning [v] to [publications] and
    then calling [remove_publication()] returns normally, gives the links
    back as they were and leaves the property bag without
    [sci:publications] and otherwise as it was.  On a host on which the
    extension is not enabled the second call raises [ExtensionError] and
    the host stays as the assignment left it.  For both adapters. *)
Theorem set_publications_then_clear_restores_links v :
  (forall it,
      item.implements SCIENTIFIC it = true ->
      Forall (fun l => Forall (fun p => ~ cites p l) v) (item.links it) ->
      (ScientificItemExt.set_publications v ;;
       ScientificItemExt.remove_publication None) it
      = (Returned tt,
         {| item.properties := delete PUBLICATIONS (item.properties it);
            item.links := item.links it;
            item.stac_extensions := item.stac_extensions it |}))
  /\ (forall c,
         collection.implements SCIENTIFIC c = true ->
         Forall (fun l => Forall (fun p => ~ cites p l) v) (collection.links c) ->
         (ScientificCollectionExt.set_publications v ;;
          ScientificCollectionExt.remove_publication None) c
         = (Returned tt,
            {| collection.extra_fields :=
                 delete PUBLICATIONS (collection.extra_fields c);
               collection.links := collection.links c;
               collection.stac_extensions := collection.stac_extensions c |}))
  /\ (forall it,
         item.implements SCIENTIFIC it = false ->
         (ScientificItemExt.set_publications v ;;
          ScientificItemExt.remove_publication None) it
         = (Raised ExtensionError,
            snd (ScientificItemExt.set_publications v it)))
  /\ (forall c,
         collection.implements SCIENTIFIC c = false ->
         (ScientificCollectionExt.set_publications v ;;
          ScientificCollectionExt.remove_publication None) c
         = (Raised ExtensionError,
            snd (ScientificCollectionExt.set_publications v c))).
Proof.
  split; [apply set_then_clear_item | split; [| split]].
  - intros c He H.
    rewrite (sim_on_collection _ _ c
               (sim_then _ _ _ _ (sim_set_publications v)
                  (sim_remove_publication None))).
    rewrite set_then_clear_item; [reflexivity | exact He | exact H].
  - apply set_then_clear_item_disabled.
  - intros c He.
    rewrite (sim_on_collection _ _ c
               (sim_then _ _ _ _ (sim_set_publications v)
                  (sim_remove_publication None))).
    rewrite set_then_clear_item_disabled by exact He.
    rewrite (sim_on_collection _ _ c (sim_set_publications v)). reflexivity.
Qed.

(** Two publications assigned and cleared on a host that has a DOI link
    and the extension enabled. *)
Lemma set_publications_then_clear_restores_links_witness :
  (ScientificItemExt.set_publications [pub_a; pub_b] ;;
   ScientificItemExt.remove_publication None)
    (snd (ScientificItemExt.set_doi "10.1000/182" item_enabled))
  = (Returned tt,
     {| item.properties :=
          delete PUBLICATIONS
            (item.properties
               (snd (ScientificItemExt.set_doi "10.1000/182" item_enabled)));
        item.links :=
          item.links (snd (ScientificItemExt.set_doi "10.1000/182" item_enabled));
        item.stac_extensions :=
          item.stac_extensions
            (snd (ScientificItemExt.set_doi "10.1000/182" item_enabled)) |}).
Proof.
  apply (proj1 (set_publications_then_clear_restores_links [pub_a; pub_b])).
  - reflexivity.
  - repeat constructor; intros [_ H]; vm_compute in H; discriminate.
Defined.

Lemma clear_all_cases_item it :
  clear_all_cases (ScientificItemExt.remove_publication None)
    item.properties item.links (item.implements SCIENTIFIC) it.
Proof.
  unfold clear_all_cases.
  destruct (item.properties it !! PUBLICATIONS) as [stored|] eqn:E.
  - rewrite (remove_publication_all it stored E).
    change (implements SCIENTIFIC it) with (item.implements SCIENTIFIC it).
    split; [| split; [| split]].
    + destruct (item.implements SCIENTIFIC it); [| discriminate].
      destruct (publications_of (Some stored)) as [pubs|e]; [| discriminate].
      intros _. simpl.
      destruct (fold_remove_link_sublist pubs (item.links it)) as (H1 & _ & H2).
      split; [reflexivity |]. split; assumption.
    + discriminate.
    + intros _ ->. reflexivity.
    + intros e -> ->. reflexivity.
  - rewrite (remove_publication_absent None it E). simpl.
    split; [| split; [| split]].
    + intros _. split; [symmetry; apply delete_id; exact E |].
      split; reflexivity.
    + reflexivity.
    + intros [x Hx]. discriminate.
    + intros e _. unfold publications_of. discriminate.
Qed.

(** X8: the four ways [remove_publication()] can go, for both adapters.
    When it returns, [sci:publications] is gone, every other key is as
    before, and the links are a sublist of the old ones with every link of
    another relation than [cite-as] kept.  Without the key it returns and
    changes nothing, whether the extension is enabled or not.  With the
    key and the extension not enabled it raises [ExtensionError] and
    changes nothing.  With the extension enabled and a stored value that
    the [publications] getter cannot read, it raises the getter's
    exception and changes nothing: no link is removed. *)
Theorem clear_all_by_cause :
  (forall it,
      clear_all_cases (ScientificItemExt.remove_publication None)
        item.properties item.links (item.implements SCIENTIFIC) it)
  /\ (forall c,
         clear_all_cases (ScientificCollectionExt.remove_publication None)
           collection.extra_fields collection.links
           (collection.implements SCIENTIFIC) c).
Proof.
  split; [apply clear_all_cases_item |]. intros c.
  pose proof (clear_all_cases_item (as_item c)) as (H1 & H2 & H3 & H4).
  pose proof (sim_on_collection _ _ c (sim_remove_publication None)) as Hc.
  unfold clear_all_cases. rewrite Hc.
  split; [| split; [| split]].
  - intros Hr. apply (H1 Hr).
  - intros Ha. rewrite (H2 Ha). simpl. rewrite as_collection_as_item.
    reflexivity.
  - intros Hs He. rewrite (H3 Hs He). simpl. rewrite as_collection_as_item.
    reflexivity.
  - intros e He Hp. rewrite (H4 e He Hp). simpl. rewrite as_collection_as_item.
    reflexivity.
Qed.

(** The four cases on sample items: [item_ab_enabled]; a new item;
    [item_ab], on which the extension is not enabled; an item with the
    extension enabled and a stored mapping without [citation]. *)
Lemma clear_all_by_cause_witness :
  cleared (item.properties item_ab_enabled) (item.links item_ab_enabled)
    (item.properties
       (snd (ScientificItemExt.remove_publication None item_ab_enabled)))
    (item.links
       (snd (ScientificItemExt.remove_publication None item_ab_enabled)))
  /\ ScientificItemExt.remove_publication None item.blank
     = (Returned tt, item.blank)
  /\ ScientificItemExt.remove_publication None item_ab
     = (Raised ExtensionError, item_ab)
  /\ ScientificItemExt.remove_publication None item_half
     = (Raised (KeyError "citation"), item_half).
Proof.
  split; [| split; [| split]].
  - apply (proj1 (proj1 clear_all_by_cause item_ab_enabled)).
    vm_compute. reflexivity.
  - apply (proj1 (proj2 (proj1 clear_all_by_cause item.blank))).
    reflexivity.
  - apply (proj1 (proj2 (proj2 (proj1 clear_all_by_cause item_ab)))).
    + eexists. reflexivity.
    + reflexivity.
  - apply (proj2 (proj2 (proj2 (proj1 clear_all_by_cause item_half)))).
    + reflexivity.
    + reflexivity.
Defined.

Lemma clear_then_remove_item publication it :
  (ScientificItemExt.remove_publication None ;;
   ScientificItemExt.remove_publication publication) it
  = ScientificItemExt.remove_publication None it.
Proof.
  run. destruct (item.properties it !! PUBLICATIONS) as [stored|] eqn:E.
  - rewrite (remove_publication_all it stored E).
    destruct (implements SCIENTIFIC it); [| reflexivity].
    destruct (publications_of (Some stored)) as [pubs|e]; [| reflexivity].
    apply remove_publication_absent. simpl. apply lookup_delete_eq.
  - rewrite (remove_publication_absent None it E).
    apply remove_publication_absent. exact E.
Qed.

(** X9: after [remove_publication()], a further [remove_publication],
    with or without a publication, changes nothing and raises nothing:
    the two calls in a row do what the first does alone; for both
    adapters. *)
Theorem clear_all_is_idempotent publication :
  (forall it,
      (ScientificItemExt.remove_publication None ;;
       ScientificItemExt.remove_publication publication) it
      = ScientificItemExt.remove_publication None it)
  /\ (forall c,
         (ScientificCollectionExt.remove_publication None ;;
          ScientificCollectionExt.remove_publication publication) c
         = ScientificCollectionExt.remove_publication None c).
Proof.
  split; [apply clear_then_remove_item |]. intros c.
  rewrite (sim_on_collection _ _ c
             (sim_then _ _ _ _ (sim_remove_publication None)
                (sim_remove_publication publication))).
  rewrite clear_then_remove_item.
  rewrite (sim_on_collection _ _ c (sim_remove_publication None)). reflexivity.
Qed.

Lemma remove_publication_found_item it pub l :
  item.properties it !! PUBLICATIONS = Some (VList l) ->
  Publication.to_dict pub ∈ l ->
  exists before after,
    l = before ++ Publication.to_dict pub :: after
    /\ (Publication.to_dict pub ∉ before)
    /\ ScientificItemExt.remove_publication (Some pub) it
       = (Returned tt,
          {| item.properties := store_rest (before ++ after) (item.properties it);
             item.links := remove_link (item.links it) pub;
             item.stac_extensions := item.stac_extensions it |}).
Proof.
  intros Hst Hin. rewrite (remove_publication_one it pub l Hst).
  pose proof (list_remove_spec (Publication.to_dict pub) l) as Hr.
  destruct (list_remove (Publication.to_dict pub) l) as [l'|]; [| contradiction].
  destruct Hr as (b & af & -> & Hb & ->). exists b, af.
  split; [reflexivity |]. split; [exact Hb |].
  destruct (b ++ af); reflexivity.
Qed.

(** X10: when the stored list holds [pub.to_dict()],
    [remove_publication(pub)] returns normally; the list loses the first
    occurrence, the links are as [remove_link] leaves them, and the key
    [sci:publications] is deleted exactly when [pub] was the only stored
    publication. *)
Theorem remove_publication_found it pub l :
  item.properties it !! PUBLICATIONS = Some (VList l) ->
  Publication.to_dict pub ∈ l ->
  (exists before after,
      l = before ++ Publication.to_dict pub :: after
      /\ (Publication.to_dict pub ∉ before)
      /\ ScientificItemExt.remove_publication (Some pub) it
         = (Returned tt,
            {| item.properties :=
                 store_rest (before ++ after) (item.properties it);
               item.links := remove_link (item.links it) pub;
               item.stac_extensions := item.stac_extensions it |}))
  /\ (item.properties (snd (ScientificItemExt.remove_publication (Some pub) it))
        !! PUBLICATIONS = None
      <-> length l = 1).
Proof.
  intros Hst Hin.
  destruct (remove_publication_found_item it pub l Hst Hin)
    as (b & af & -> & Hb & Hrun).
  split; [exists b, af; auto |]. rewrite Hrun. simpl.
  rewrite length_app. simpl. destruct (b ++ af) as [|x r] eqn:E; simpl.
  - apply app_eq_nil in E as [-> ->]. rewrite lookup_delete_eq. simpl. tauto.
  - rewrite lookup_insert_eq. split; [discriminate |]. intros Hl.
    apply (f_equal length) in E. rewrite length_app in E. simpl in E. lia.
Qed.

(** [remove_publication(pub_b)] on a host that holds [pub_a] and [pub_b]. *)
Lemma remove_publication_found_witness :
  (exists before after,
      [Publication.to_dict pub_a; Publication.to_dict pub_b]
      = before ++ Publication.to_dict pub_b :: after
      /\ (Publication.to_dict pub_b ∉ before)
      /\ ScientificItemExt.remove_publication (Some pub_b) item_ab
         = (Returned tt,
            {| item.properties :=
                 store_rest (before ++ after) (item.properties item_ab);
               item.links := remove_link (item.links item_ab) pub_b;
               item.stac_extensions := item.stac_extensions item_ab |}))
  /\ (item.properties
        (snd (ScientificItemExt.remove_publication (Some pub_b) item_ab))
        !! PUBLICATIONS = None
      <-> length [Publication.to_dict pub_a; Publication.to_dict pub_b] = 1).
Proof.
  apply (remove_publication_found item_ab pub_b).
  - reflexivity.
  - apply elem_of_cons. right. apply elem_of_cons. left. reflexivity.
Defined.

Lemma set_publications_twice_item v1 v2 it :
  (ScientificItemExt.set_publications v1 ;;
   ScientificItemExt.set_publications v2) it
  = (Returned tt,
     {| item.properties :=
          <[PUBLICATIONS := VList (map Publication.to_dict v2)]>
            (item.properties it);
        item.links :=
          item.links it ++ map Publication.get_link v1
          ++ map Publication.get_link v2;
        item.stac_extensions := item.stac_extensions it |}).
Proof.
  run. rewrite !set_publications_run. simpl.
  rewrite insert_insert_eq, <- app_assoc. reflexivity.
Qed.

(** X11: two assignments to [publications] in a row leave the second list
    alone in the field, and the links of both lists, in the order of the
    assignments, after the links the host had; for both adapters. *)
Theorem set_publications_overwrites_field_keeps_links v1 v2 :
  (forall it,
      (ScientificItemExt.set_publications v1 ;;
       ScientificItemExt.set_publications v2) it
      = (Returned tt,
         {| item.properties :=
              <[PUBLICATIONS := VList (map Publication.to_dict v2)]>
                (item.properties it);
            item.links :=
              item.links it ++ map Publication.get_link v1
              ++ map Publication.get_link v2;
            item.stac_extensions := item.stac_extensions it |}))
  /\ (forall c,
         (ScientificCollectionExt.set_publications v1 ;;
          ScientificCollectionExt.set_publications v2) c
         = (Returned tt,
            {| collection.extra_fields :=
                 <[PUBLICATIONS := VList (map Publication.to_dict v2)]>
                   (collection.extra_fields c);
               collection.links :=
                 collection.links c ++ map Publication.get_link v1
                 ++ map Publication.get_link v2;
               collection.stac_extensions := collection.stac_extensions c |})).
Proof.
  split; [apply set_publications_twice_item |]. intros c.
  rewrite (sim_on_collection _ _ c
             (sim_then _ _ _ _ (sim_set_publications v1)
                (sim_set_publications v2))).
  rewrite set_publications_twice_item. reflexivity.
Qed.

Lemma get_after_set_publications_item v it :
  (ScientificItemExt.set_publications v ;; ScientificItemExt.publications) it
  = (Returned v, snd (ScientificItemExt.set_publications v it)).
Proof.
  run. rewrite set_publications_run. unfold ScientificItemExt.publications.
  run. rewrite lookup_insert_eq. unfold publications_of.
  rewrite comprehension_from_dict. reflexivity.
Qed.

(** X12: reading [publications] right after assigning [v] returns a list
    equal to [v] and leaves the host as the assignment left it; for both
    adapters. *)
Theorem publications_getter_returns_what_was_set v :
  (forall it,
      (ScientificItemExt.set_publications v ;; ScientificItemExt.publications) it
      = (Returned v, snd (ScientificItemExt.set_publications v it)))
  /\ (forall c,
         (ScientificCollectionExt.set_publications v ;;
          ScientificCollectionExt.publications) c
         = (Returned v, snd (ScientificCollectionExt.set_publications v c))).
Proof.
  split; [apply get_after_set_publications_item |]. intros c.
  rewrite (sim_on_collection _ _ c
             (sim_bind _ _ _ _ (sim_set_publications v)
                (fun _ => sim_publications))).
  rewrite get_after_set_publications_item.
  rewrite (sim_on_collection _ _ c (sim_set_publications v)). reflexivity.
Qed.

(* ===================================================================== *)
(** * Sessions *)
(* ===================================================================== *)

Lemma run_item_unit {A} (m : M item.Item A) (f : A -> answer) it :
  answering f m it
  = (match fst (m it) with Returned a => Returned (f a) | Raised e => Raised e end,
     snd (m it)).
Proof. unfold answering. run. destruct (m it) as [[a|e] it']; reflexivity. Qed.

(** X15: a removal that fails still takes a link away.  On a new item, set
    the DOI [d], store one publication with DOI [d], ask to remove a
    publication with DOI [d] and another citation ([ValueError]), then
    remove the stored one: [sci:doi] is still [d] and no link is left. *)
Theorem failed_removal_leaves_doi_without_link d c1 c2 :
  c1 <> c2 ->
  session run_item (out_of_step d c1 c2) item.blank
  = ([Returned ANone; Returned ANone; Raised ValueError; Returned ANone],
     {| item.properties := <[DOI := VStr d]> ∅; item.links := [];
        item.stac_extensions := None |}).
Proof.
  intros Hc. destruct keys_distinct as (_ & K & _).
  assert (Hne : Publication.to_dict (Publication.new d c1)
                <> Publication.to_dict (Publication.new d c2)).
  { intros E. apply to_dict_inj in E. congruence. }
  unfold out_of_step, session, run_item. rewrite !run_item_unit.
  rewrite set_doi_run. cbn [fst snd]. rewrite set_publications_run.
  cbn [fst snd item.properties item.links map app].
  set (st := [Publication.to_dict (Publication.new d c1)]).
  rewrite (remove_publication_one _ (Publication.new d c2) st)
    by apply lookup_insert_eq.
  assert (E1 : list_remove (Publication.to_dict (Publication.new d c2)) st = None).
  { unfold st. simpl. destruct (decide _); [contradiction | reflexivity]. }
  rewrite E1. cbn [fst snd item.properties item.links].
  rewrite (remove_link_first _ (Publication.new d c2) [] (the_link d) [the_link d])
    by (try split; try reflexivity; constructor).
  rewrite (remove_publication_one _ (Publication.new d c1) st)
    by apply lookup_insert_eq.
  assert (E2 : list_remove (Publication.to_dict (Publication.new d c1)) st = Some []).
  { unfold st. simpl. destruct (decide _); [reflexivity | congruence]. }
  rewrite E2. cbn [fst snd item.properties item.links].
  rewrite (remove_link_first _ (Publication.new d c1) [] (the_link d) [])
    by (try split; try reflexivity; constructor).
  rewrite delete_insert_eq, delete_id; [reflexivity |].
  rewrite lookup_insert_ne by exact K. apply lookup_empty.
Qed.

(** The session with the DOI handbook's DOI and citations [A] and [B]. *)
Lemma failed_removal_leaves_doi_without_link_witness :
  session run_item (out_of_step "10.1000/182" "A" "B") item.blank
  = ([Returned ANone; Returned ANone; Raised ValueError; Returned ANone],
     {| item.properties := <[DOI := VStr "10.1000/182"]> ∅; item.links := [];
        item.stac_extensions := None |}).
Proof.
  apply (failed_removal_leaves_doi_without_link "10.1000/182" "A" "B").
  discriminate.
Defined.

Lemma setters_independent_item v ps it :
  setters_independent run_item item.links v ps it.
Proof.
  destruct keys_distinct as (K1 & K2 & K3).
  unfold setters_independent, answer_after, run_item.
  rewrite !run_item_unit. cbn [fst snd].
  rewrite set_doi_run, set_publications_run, set_citation_run.
  unfold ScientificItemExt.doi, ScientificItemExt.citation,
    ScientificItemExt.publications. run.
  rewrite !lookup_insert_eq.
  rewrite !(lookup_insert_ne _ DOI CITATION) by exact K1.
  rewrite !(lookup_insert_ne _ DOI PUBLICATIONS) by exact K2.
  rewrite !(lookup_insert_ne _ CITATION PUBLICATIONS) by exact K3.
  rewrite !(lookup_insert_ne _ CITATION DOI) by congruence.
  rewrite !(lookup_insert_ne _ PUBLICATIONS DOI) by congruence.
  rewrite !(lookup_insert_ne _ PUBLICATIONS CITATION) by congruence.
  repeat split.
Qed.

Lemma run_collection_fst c0 c :
  fst (run_collection c0 c) = fst (run_item c0 (as_item c)).
Proof. rewrite (sim_on_collection _ _ c (sim_run c0)). reflexivity. Qed.

Lemma run_collection_snd c0 c :
  snd (run_collection c0 c) = as_collection (snd (run_item c0 (as_item c))).
Proof. rewrite (sim_on_collection _ _ c (sim_run c0)). reflexivity. Qed.

(** X13: for both adapters, a value assigned to [doi] or [citation] is
    what the getter of that field returns next, and an assignment to
    [doi], [citation] or [publications] does not change what the getters
    of the other fields return; assigning [citation] leaves the links
    alone. *)
Theorem setters_touch_their_own_field v ps :
  (forall it, setters_independent run_item item.links v ps it)
  /\ (forall c, setters_independent run_collection collection.links v ps c).
Proof.
  split; [apply setters_independent_item |]. intros c.
  pose proof (setters_independent_item v ps (as_item c)) as H.
  unfold setters_independent, answer_after in *.
  rewrite !run_collection_snd, !run_collection_fst, !as_item_as_collection.
  exact H.
Qed.

(** ** [is_doi_valid] *)

Lemma chars_app a b : chars (a +:+ b) = chars a ++ chars b.
Proof.
  induction a as [|c a IH]; [reflexivity |].
  rewrite app_String. simpl. rewrite IH. reflexivity.
Qed.

Lemma chars_length s : length (chars s) = String.length s.
Proof. induction s as [|c s IH]; simpl; [| rewrite IH]; reflexivity. Qed.

(** X5: a valid DOI stays valid with any text appended, has at least nine
    characters and starts with [10.]. *)
Theorem valid_doi_may_be_extended doi :
  is_doi_valid doi = true ->
  (forall trailing, is_doi_valid (doi +:+ trailing) = true)
  /\ 9 <= String.length doi
  /\ exists rest, doi = "10." +:+ rest.
Proof.
  intros H. split; [| split].
  - intros t. unfold is_doi_valid, Re.re_match in *.
    apply ReFacts.match_prefix_spec in H as (p & q & E & Hp).
    apply ReFacts.match_prefix_spec. exists p, (q ++ chars t).
    split; [| exact Hp]. rewrite chars_app, E, app_assoc. reflexivity.
  - apply is_doi_valid_shape in H as (ds & gs & c & t & Hl & _ & _ & _ & E).
    rewrite <- chars_length, E. simpl. rewrite !length_app. simpl. lia.
  - apply is_doi_valid_shape in H as (ds & gs & c & t & Hl & _ & _ & _ & E).
    destruct doi as [|x1 [|x2 [|x3 r]]]; simpl in E; try discriminate.
    injection E as -> -> -> _. exists r. reflexivity.
Qed.

(** The DOI handbook's DOI. *)
Lemma valid_doi_may_be_extended_witness :
  (forall trailing, is_doi_valid ("10.1000/182" +:+ trailing) = true)
  /\ 9 <= String.length "10.1000/182"
  /\ exists rest, "10.1000/182" = "10." +:+ rest.
Proof. apply (valid_doi_may_be_extended "10.1000/182"). reflexivity. Defined.

(* ===================================================================== *)
(** * The characters of a URL, and [__repr__] *)
(* ===================================================================== *)

Lemma hex_digit_safe n : n < 16 -> parse.always_safe (parse.hex_digit n) = true.
Proof.
  intros Hn. do 16 (destruct n as [|n]; [reflexivity |]). lia.
Qed.

Lemma percent_url_chars c : forallb url_char (chars (parse.percent c)) = true.
Proof.
  unfold parse.percent. cbv zeta.
  pose proof (nat_ascii_bounded c) as B.
  pose proof (Nat.mod_upper_bound (nat_of_ascii c) 16) as M1.
  assert (nat_of_ascii c / 16 < 16) as M2
      by (apply Nat.Div0.div_lt_upper_bound; lia).
  remember (nat_of_ascii c / 16) as q. remember (nat_of_ascii c mod 16) as r.
  cbn [chars forallb]. unfold url_char at 2 3, kept.
  rewrite !hex_digit_safe by lia. reflexivity.
Qed.

Lemma quote_url_chars s : forallb url_char (chars (parse.quote s)) = true.
Proof.
  unfold parse.quote. induction s as [|c s IH]; [reflexivity |].
  rewrite quote_with_cons. fold (kept c). destruct (kept c) eqn:K.
  - cbn [chars forallb]. unfold url_char at 1. rewrite K, IH. reflexivity.
  - rewrite chars_app, forallb_app, percent_url_chars, IH. reflexivity.
Qed.

Lemma quote_kept s : forallb kept (chars s) = true -> parse.quote s = s.
Proof.
  unfold parse.quote. induction s as [|c s IH]; [reflexivity |].
  cbn [chars forallb]. intros H. apply andb_true_iff in H as [K Hs].
  rewrite quote_with_cons. fold (kept c). rewrite K, IH by exact Hs. reflexivity.
Qed.

(** X4: a URL made by [doi_to_url] contains only letters, digits,
    [_.-~], [/], [:] and [%]; a DOI made only of characters that [quote]
    keeps comes out unchanged after the prefix. *)
Theorem doi_to_url_is_url_safe :
  (forall doi, forallb url_char (chars (doi_to_url doi)) = true)
  /\ (forall doi,
         forallb kept (chars doi) = true ->
         doi_to_url doi = "https://doi.org/" +:+ doi).
Proof.
  split.
  - intros doi. unfold doi_to_url. rewrite chars_app, forallb_app, quote_url_chars.
    reflexivity.
  - intros doi H. unfold doi_to_url. rewrite quote_kept by exact H. reflexivity.
Qed.

(** A DOI with letters, digits, [/], [-], [_] and [.]. *)
Lemma doi_to_url_is_url_safe_witness :
  doi_to_url "10.5555/a-b_c.d" = "https://doi.org/" +:+ "10.5555/a-b_c.d".
Proof. apply (proj2 doi_to_url_is_url_safe). reflexivity. Defined.

(** X16: [__repr__] does not tell where the DOI ends: a publication whose
    DOI ends in [ target=b] and one whose citation starts with
    [b target=] have the same representation. *)
Theorem repr_does_not_separate_fields a b c :
  Publication_repr (Publication.new (a +:+ " target=" +:+ b) c)
  = Publication_repr (Publication.new a (b +:+ " target=" +:+ c)).
Proof.
  unfold Publication_repr. simpl. rewrite !string_app_assoc. reflexivity.
Qed.
